(** * gphotosuploader: the upload workflow of [api/upload.go]

    A shallow embedding of [api/upload.go]: the options and result structs,
    [NewUpload], [getImageIDFromURL], [UploadResult.URLString] and
    [Upload.Upload], together with the part of Go's [regexp] package that
    [RegexUploadedImageURL] exercises. *)

From Stdlib Require Import ZArith Ascii String List Bool Lia.
From stdpp Require Import base option strings gmap.
Import ListNotations.

Local Open Scope string_scope.
Local Open Scope list_scope.

(* stdpp blocks [simpl] on string concatenation; the proofs below compute
   with it. *)
Local Arguments String.append !s1 s2 : simpl nomatch.

(** ** Go's [error] values

    An [error] is either [nil] or a value observed through its message.
    [errors.New] and [fmt.Errorf] (used here without verbs) build one from
    a message. *)

Definition error := option string.

Definition errors_New (msg : string) : error := Some msg.
Definition fmt_Errorf (msg : string) : error := Some msg.

(** ** The fragment of [regexp] used by [RegexUploadedImageURL]

    Go matches over UTF-8 runes; every literal and class of the pattern
    below is ASCII, so a byte of a multi-byte rune matches nothing and the
    byte-wise matcher agrees with the rune-wise one. *)

Module Regexp.

Inductive regex :=
| EmptyMatch
| BeginText                                   (* ^ without flag m *)
| EndText                                     (* $ without flag m *)
| Literal (c : ascii)
| CharClass (ranges : list (ascii * ascii))   (* inclusive ranges *)
| Concat (r1 r2 : regex)
| Plus (r : regex)                            (* greedy r+ *)
| Capture (i : nat) (r : regex).

(** A position in the text together with the groups captured so far. *)
Record thread := Thread {
  pos : nat;
  rest : string;
  caps : list (nat * string)
}.

Definition in_class (ranges : list (ascii * ascii)) (c : ascii) : bool :=
  existsb (fun r => (nat_of_ascii (fst r) <=? nat_of_ascii c)%nat
                    && (nat_of_ascii c <=? nat_of_ascii (snd r))%nat) ranges.

Definition step_char (ok : ascii -> bool) (t : thread) : list thread :=
  match rest t with
  | String c s' => if ok c then [Thread (S (pos t)) s' (caps t)] else []
  | EmptyString => []
  end.

(** Iterating a body greedily: after one pass, further passes are
    preferred to stopping.  A pass that consumed nothing is not
    repeated. *)
Fixpoint iterate (body : thread -> list thread) (fuel : nat) (t : thread)
  : list thread :=
  match fuel with
  | O => []
  | S fuel' =>
      flat_map (fun t' =>
                  if (String.length (rest t') <? String.length (rest t))%nat
                  then iterate body fuel' t' ++ [t']
                  else [t'])
               (body t)
  end.

(** All the ways of matching [r] from thread [t], most preferred first
    (leftmost-first, as in Perl and in Go's non-POSIX mode). *)
Fixpoint exec (r : regex) (t : thread) : list thread :=
  match r with
  | EmptyMatch => [t]
  | BeginText => if (pos t =? 0)%nat then [t] else []
  | EndText => match rest t with EmptyString => [t] | _ => [] end
  | Literal c => step_char (Ascii.eqb c) t
  | CharClass ranges => step_char (in_class ranges) t
  | Concat r1 r2 => flat_map (exec r2) (exec r1 t)
  | Plus r' => iterate (exec r') (S (String.length (rest t))) t
  | Capture i r' =>
      map (fun t' =>
             Thread (pos t') (rest t')
                    ((i, substring 0 (pos t' - pos t) (rest t)) :: caps t'))
          (exec r' t)
  end.

Fixpoint NumSubexp (r : regex) : nat :=
  match r with
  | Concat r1 r2 => NumSubexp r1 + NumSubexp r2
  | Plus r' => NumSubexp r'
  | Capture _ r' => S (NumSubexp r')
  | _ => 0
  end.

Definition group (i : nat) (t : thread) : string :=
  match find (fun c => (fst c =? i)%nat) (caps t) with
  | Some c => snd c
  | None => ""
  end.

(** The leftmost match starting at offset [start] or later, where [s] is
    the text from [start] on. *)
Fixpoint search (re : regex) (start : nat) (s : string) : list string :=
  match exec re (Thread start s []) with
  | t :: _ =>
      substring 0 (pos t - start) s
        :: map (fun i => group i t) (seq 1 (NumSubexp re))
  | [] =>
      match s with
      | String _ s' => search re (S start) s'
      | EmptyString => []
      end
  end.

(** [re.FindStringSubmatch(s)]: the text of the leftmost match followed
    by the text of each group, or [nil] when nothing matches. *)
Definition FindStringSubmatch (re : regex) (s : string) : list string :=
  search re 0 s.

(** A literal string, one [Literal] per byte. *)
Fixpoint literal (s : string) : regex :=
  match s with
  | EmptyString => EmptyMatch
  | String c s' => Concat (Literal c) (literal s')
  end.

End Regexp.

Import Regexp.

(** The class [\w] of Go: [0-9A-Za-z_]. *)
Definition perl_w : list (ascii * ascii) :=
  [("0", "9"); ("A", "Z"); ("_", "_"); ("a", "z")]%char.

(** [regexp.MustCompile("^https:\\/\\/lh3\\.googleusercontent\\.com\\/([\\w-]+)$")] *)
Definition RegexUploadedImageURL : regex :=
  Concat BeginText
    (Concat (literal "https://lh3.googleusercontent.com/")
       (Concat (Capture 1 (Plus (CharClass (perl_w ++ [("-", "-")%char]))))
          EndText)).

(** Every character of [s] satisfies [ok]. *)
Fixpoint all_chars (ok : ascii -> bool) (s : string) : bool :=
  match s with
  | EmptyString => true
  | String c s' => ok c && all_chars ok s'
  end.

(** The characters of an image identifier: [[\w-]]. *)
Definition id_char : ascii -> bool := in_class (perl_w ++ [("-", "-")%char]).

(** ** Data model of [api/upload.go] *)

(** An [io.Reader] is known here only by its identity; [nil] is [None]. *)
Definition Reader := N.

(** A pointer to an [UploadOptions]. *)
Definition loc := positive.

(** [int64] fields are integers; the code only compares them. *)
Record UploadOptions := mkUploadOptions {
  Stream : option Reader;
  FileSize : Z;
  Name : string;
  Timestamp : Z;
  AlbumId : string;
  AlbumName : string
}.

Record UploadResult := mkUploadResult {
  Uploaded : bool;
  ImageID : string;
  ImageUrl : string;
  AlbumID : string
}.

(** [o.Name = v] and [o.Timestamp = v] on a struct value. *)
Definition set_Name (v : string) (o : UploadOptions) : UploadOptions :=
  mkUploadOptions (Stream o) (FileSize o) v (Timestamp o)
                  (AlbumId o) (AlbumName o).

Definition set_Timestamp (v : Z) (o : UploadOptions) : UploadOptions :=
  mkUploadOptions (Stream o) (FileSize o) (Name o) v
                  (AlbumId o) (AlbumName o).

(** A [time.Time], through the two methods the code calls on it. *)
Record time_Time := mkTime {
  Time_Unix : Z;
  Time_String : string
}.

Section Workflow.

(** [auth.CookieCredentials] is declared in another package. *)
Variable CookieCredentials : Type.

(** [url] and [idToMoveIntoAlbum] are written and read by the remote
    steps only; [upload.go] sets them to their zero value. *)
Record Upload := mkUpload {
  Options : loc;
  Credentials : CookieCredentials;
  url : string;
  idToMoveIntoAlbum : string
}.

(** *** Calls that leave [upload.go]

    The five remote steps are methods of [*Upload] whose bodies are in
    other files of the package; [log.Println] and [time.Now] belong to
    the Go library.  [moveToAlbum] is called as a statement, so whatever
    it returns is dropped. *)
Inductive Step :=
| requestUploadURL (u : Upload)
| uploadFile (u : Upload)
| enablePhoto (u : Upload) (token : string)
| moveToAlbum (u : Upload) (albumId : string)
| createAlbum (u : Upload) (albumName : string)
| log_Println (msg : string)
| time_Now.

Definition Resp (s : Step) : Type :=
  match s with
  | requestUploadURL _ => error
  | uploadFile _ => (string * error)%type
  | enablePhoto _ _ => (string * error)%type
  | moveToAlbum _ _ => error
  | createAlbum _ _ => (string * error)%type
  | log_Println _ => unit
  | time_Now => time_Time
  end.

(** *** Programs

    A program returns, panics, calls out, or reads or writes an
    [UploadOptions] through a pointer. *)
Inductive Prog (A : Type) : Type :=
| Ret (a : A)
| Panic
| Call (s : Step) (k : Resp s -> Prog A)
| Get (p : loc) (k : UploadOptions -> Prog A)
| Put (p : loc) (o : UploadOptions) (k : Prog A).

Arguments Ret {A} a.
Arguments Panic {A}.
Arguments Call {A} s k.
Arguments Get {A} p k.
Arguments Put {A} p o k.

Fixpoint bind {A B} (m : Prog A) (f : A -> Prog B) : Prog B :=
  match m with
  | Ret a => f a
  | Panic => Panic
  | Call s k => Call s (fun x => bind (k x) f)
  | Get p k => Get p (fun o => bind (k o) f)
  | Put p o k => Put p o (bind k f)
  end.

(** stdpp's notations [x ← m; k] and [m ;; k] are sequencing. *)
#[global] Instance Prog_ret : MRet Prog := @Ret.
#[global] Instance Prog_bind : MBind Prog := fun A B f m => bind m f.

Definition call (s : Step) : Prog (Resp s) := Call s Ret.

(** [p.f] for a pointer [p]: a panic when [p] points nowhere. *)
Definition field {X} (p : loc) (f : UploadOptions -> X) : Prog X :=
  Get p (fun o => Ret (f o)).

(** [p.f = v] *)
Definition assign (p : loc) (upd : UploadOptions -> UploadOptions)
  : Prog unit :=
  Get p (fun o => Put p (upd o) (Ret tt)).

(** A value, or a panic when there is none. *)
Definition lift {X} (x : option X) : Prog X :=
  match x with Some v => Ret v | None => Panic end.

(** *** Running a program *)

(** Modelled from the spec: the bodies of [requestUploadURL],
    [uploadFile], [enablePhoto], [moveToAlbum] and [createAlbum] are not
    in [upload.go].  By the spec the workflow object "is mutated only by
    its own sequential steps" (its [url] and [idToMoveIntoAlbum]) and the
    request is only read, so a step sees the options and changes the
    state [W] of everything else: the transport, the clock, the log and
    the private fields of the workflow. *)
Definition Env (W : Type) : Type :=
  forall s : Step, gmap loc UploadOptions -> W -> Resp s * W.

Record Outcome (W A : Type) := mkOutcome {
  result : A;
  heap : gmap loc UploadOptions;
  world : W;
  trace : list Step  (* the calls made, oldest first *)
}.

Arguments mkOutcome {W A}.
Arguments result {W A}.
Arguments heap {W A}.
Arguments world {W A}.
Arguments trace {W A}.

Fixpoint run {W A} (env : Env W) (m : Prog A)
    (σ : gmap loc UploadOptions) (w : W) (tr : list Step)
  : option (Outcome W A) :=
  match m with
  | Ret a => Some (mkOutcome a σ w tr)
  | Panic => None
  | Call s k =>
      let (x, w') := env s σ w in run env (k x) σ w' (tr ++ [s])
  | Get p k =>
      match σ !! p with
      | Some o => run env (k o) σ w tr
      | None => None
      end
  | Put p o k =>
      match σ !! p with
      | Some _ => run env k (<[p:=o]> σ) w tr
      | None => None
      end
  end.

(** *** [NewUpload] *)

Definition NewUpload (options : loc) (credentials : CookieCredentials)
  : Prog (option Upload * error) :=
  stream ← field options Stream;
  match stream with
  | None =>
      Ret (None, errors_New "the stream of the UploadOptions is nil")
  | Some _ =>
  fileSize ← field options FileSize;
  if (fileSize <=? 0)%Z then
    Ret (None, errors_New "the fileSize of the UploadOptions is <= 0")
  else
  (* Fill missing optional fields *)
  name ← field options Name;
  (if String.eqb name "" then
     now ← call time_Now;
     assign options (set_Name (Time_String now))
   else Ret tt) ;;
  timestamp ← field options Timestamp;
  (if (timestamp <? 0)%Z then
     now ← call time_Now;
     assign options (set_Timestamp (Time_Unix now))
   else Ret tt) ;;
  Ret (Some (mkUpload options credentials "" ""), None)
  end.

(** *** [getImageIDFromURL]

    [matches[1]] panics when out of range, hence the [option]. *)
Definition getImageIDFromURL (URL : string) : option (string * error) :=
  let matches := FindStringSubmatch RegexUploadedImageURL URL in
  if negb (List.length matches =? 2)%nat then
    Some ("", fmt_Errorf "url doesn't contain the image id")
  else
    match nth_error matches 1 with
    | Some m => Some (m, None)
    | None => None
    end.

(** *** [UploadResult.URLString] *)
Definition URLString (ur : UploadResult) : string :=
  "https://lh3.googleusercontent.com/" +:+ ImageID ur.

(** *** [Upload.Upload] *)
Definition Upload_Upload (u : Upload) : Prog (UploadResult * error) :=
  (* First request to get the upload url *)
  err ← call (requestUploadURL u);
  match err with
  | Some _ =>
      Ret (mkUploadResult false "" "" "",
           errors_New "can't get an upload url")
  | None =>
  (* Upload the real image file *)
  r ← call (uploadFile u);
  let token := fst r in
  match snd r with
  | Some _ =>
      Ret (mkUploadResult false "" "" "",
           errors_New "can't upload file to the url obtained from the previously request")
  | None =>
  (* Enable the photo *)
  r ← call (enablePhoto u token);
  let uploadedImageURL := fst r in
  match snd r with
  | Some e =>
      call (log_Println "[WARNING] The file has been uploaded, but the image url in the reply was not found. The image may not appear.") ;;
      Ret (mkUploadResult true "" "" "", Some e)
  | None =>
  r ← lift (getImageIDFromURL uploadedImageURL);
  let uploadedImageID := fst r in
  match snd r with
  | Some e =>
      call (log_Println "[WARNING] the file has been uploaded, but the image URL does not contain its id. The image may not appear.") ;;
      Ret (mkUploadResult true "" uploadedImageURL "", Some e)
  | None =>
  (* Add the image to an album if needed *)
  albumId ← field (Options u) AlbumId;
  (if negb (String.eqb albumId "") then
     albumId ← field (Options u) AlbumId;
     call (moveToAlbum u albumId) ;; Ret tt
   else Ret tt) ;;
  (* Create album and add the image if needed *)
  albumName ← field (Options u) AlbumName;
  if negb (String.eqb albumName "") then
    albumName ← field (Options u) AlbumName;
    r ← call (createAlbum u albumName);
    let createdAlbumID := fst r in
    match snd r with
    | Some e =>
        call (log_Println "[WARNING] the file has been uploaded, but the album hasn't been created.") ;;
        Ret (mkUploadResult true uploadedImageID uploadedImageURL "",
             Some e)
    | None =>
        Ret (mkUploadResult true uploadedImageID uploadedImageURL
               createdAlbumID, None)
    end
  else
    (* No errors, image uploaded! *)
    Ret (mkUploadResult true uploadedImageID uploadedImageURL "", None)
  end end end end.

End Workflow.

Arguments Ret {CookieCredentials A} a.
Arguments Panic {CookieCredentials A}.
Arguments Call {CookieCredentials A} s k.
Arguments Get {CookieCredentials A} p k.
Arguments Put {CookieCredentials A} p o k.
Arguments mkOutcome {CookieCredentials W A}.
Arguments result {CookieCredentials W A}.
Arguments heap {CookieCredentials W A}.
Arguments world {CookieCredentials W A}.
Arguments trace {CookieCredentials W A}.
Arguments run {CookieCredentials W A} env m σ w tr.
Arguments NewUpload {CookieCredentials} options credentials.
Arguments Upload_Upload {CookieCredentials} u.
Arguments mkUpload {CookieCredentials}.
Arguments Options {CookieCredentials}.
Arguments Credentials {CookieCredentials}.
Arguments requestUploadURL {CookieCredentials} u.
Arguments uploadFile {CookieCredentials} u.
Arguments enablePhoto {CookieCredentials} u token.
Arguments moveToAlbum {CookieCredentials} u albumId.
Arguments createAlbum {CookieCredentials} u albumName.
Arguments log_Println {CookieCredentials} msg.
Arguments time_Now {CookieCredentials}.

(** ** The answers of the environment along a run of [Upload.Upload]

    What each step returns when it is called in the order of the code,
    starting from heap [σ] and state [w]. *)

Section Answers.

Context {CookieCredentials W : Type}.
Variables (env : Env CookieCredentials W) (u : Upload CookieCredentials).
Variables (σ : gmap loc UploadOptions) (w : W).

Definition answer_requestUploadURL
  : Resp CookieCredentials (requestUploadURL u) * W :=
  env (requestUploadURL u) σ w.

Definition answer_uploadFile
  : Resp CookieCredentials (uploadFile u) * W :=
  env (uploadFile u) σ (snd answer_requestUploadURL).

Definition token : string := fst (fst answer_uploadFile).

Definition answer_enablePhoto
  : Resp CookieCredentials (enablePhoto u token) * W :=
  env (enablePhoto u token) σ (snd answer_uploadFile).

(** The state once the optional move into an existing album is done. *)
Definition world_after_move (o : UploadOptions) : W :=
  if String.eqb (AlbumId o) "" then snd answer_enablePhoto
  else snd (env (moveToAlbum u (AlbumId o)) σ (snd answer_enablePhoto)).

Definition answer_createAlbum (o : UploadOptions)
  : Resp CookieCredentials (createAlbum u (AlbumName o)) * W :=
  env (createAlbum u (AlbumName o)) σ (world_after_move o).

(** The calls made up to and including [enablePhoto], and the optional
    [moveToAlbum]. *)
Definition trace_to_enablePhoto : list (Step CookieCredentials) :=
  [requestUploadURL u; uploadFile u; enablePhoto u token].

Definition trace_move (o : UploadOptions) : list (Step CookieCredentials) :=
  if String.eqb (AlbumId o) "" then [] else [moveToAlbum u (AlbumId o)].

End Answers.

(** Every step up to the identifier succeeded, and so did the creation of
    an album when a name asks for one. *)
Definition full_success {CookieCredentials W} (env : Env CookieCredentials W)
    (u : Upload CookieCredentials) (σ : gmap loc UploadOptions) (w : W)
    (o : UploadOptions) : Prop :=
  fst (answer_requestUploadURL env u σ w) = None
  /\ snd (fst (answer_uploadFile env u σ w)) = None
  /\ snd (fst (answer_enablePhoto env u σ w)) = None
  /\ (exists id,
        getImageIDFromURL (fst (fst (answer_enablePhoto env u σ w)))
        = Some (id, None))
  /\ (AlbumName o = ""
      \/ snd (fst (answer_createAlbum env u σ w o)) = None).

(** ** The readings of the clock along a run of [NewUpload] *)

Section Readings.

Context {CookieCredentials W : Type}.
Variables (env : Env CookieCredentials W) (p : loc).
Variables (σ : gmap loc UploadOptions) (w : W) (o : UploadOptions).

Definition now_for_Name : time_Time * W := env time_Now σ w.

Definition named : UploadOptions :=
  if String.eqb (Name o) "" then
    set_Name (Time_String (fst now_for_Name)) o
  else o.

Definition heap_named : gmap loc UploadOptions :=
  if String.eqb (Name o) "" then <[p:=named]> σ else σ.

Definition world_named : W :=
  if String.eqb (Name o) "" then snd now_for_Name else w.

Definition now_for_Timestamp : time_Time * W :=
  env time_Now heap_named world_named.

Definition filled : UploadOptions :=
  if (Timestamp o <? 0)%Z then
    set_Timestamp (Time_Unix (fst now_for_Timestamp)) named
  else named.

Definition world_filled : W :=
  if (Timestamp o <? 0)%Z then snd now_for_Timestamp else world_named.

Definition trace_filled : list (Step CookieCredentials) :=
  (if String.eqb (Name o) "" then [time_Now] else [])
  ++ (if (Timestamp o <? 0)%Z then [time_Now] else []).

End Readings.

(** The steps that come after the transfer of the bytes. *)
Definition later_step {C} (s : Step C) : bool :=
  match s with
  | enablePhoto _ _ | moveToAlbum _ _ | createAlbum _ _ => true
  | _ => false
  end.

(** A line of the log at warning level. *)
Definition is_warning {C} (s : Step C) : bool :=
  match s with
  | log_Println msg => String.prefix "[WARNING]" msg
  | _ => false
  end.

(** ** A scripted transport

    Every step answers from a fixed script, whatever its arguments; the
    state counts the calls made. *)

Record Script := mkScript {
  on_requestUploadURL : error;
  on_uploadFile : string * error;
  on_enablePhoto : string * error;
  on_moveToAlbum : error;
  on_createAlbum : string * error;
  on_time_Now : time_Time
}.

Definition scripted (sc : Script) : Env unit nat :=
  fun s _ n =>
    (match s return Resp unit s with
     | requestUploadURL _ => on_requestUploadURL sc
     | uploadFile _ => on_uploadFile sc
     | enablePhoto _ _ => on_enablePhoto sc
     | moveToAlbum _ _ => on_moveToAlbum sc
     | createAlbum _ _ => on_createAlbum sc
     | log_Println _ => tt
     | time_Now => on_time_Now sc
     end, S n).

(** Sample options: nothing optional set; an album to create; no stream;
    a name and a negative timestamp. *)
Definition options0 : UploadOptions :=
  mkUploadOptions (Some 7%N) 1024 "" 0 "" "".

Definition options_album : UploadOptions :=
  mkUploadOptions (Some 8%N) 2048 "IMG_0001.jpg" 1600000000000 "" "Holidays".

Definition options_nil_stream : UploadOptions :=
  mkUploadOptions None 1024 "IMG_0002.jpg" 1600000000000 "" "".

Definition options_negative : UploadOptions :=
  mkUploadOptions (Some 9%N) 512 "IMG_0003.jpg" (-1) "ALBUM7" "".

Definition heap0 : gmap loc UploadOptions :=
  {[ 1%positive := options0; 2%positive := options_album;
     3%positive := options_nil_stream; 4%positive := options_negative ]}.

Definition upload0 : Upload unit := mkUpload 1%positive tt "" "".
Definition upload_album : Upload unit := mkUpload 2%positive tt "" "".

Definition instant0 : time_Time :=
  mkTime 1700000000 "2023-11-14 22:13:20 +0000 UTC".

(** Everything succeeds. *)
Definition happy : Script :=
  mkScript None ("token", None)
    ("https://lh3.googleusercontent.com/AbC-123_xyz", None)
    None ("ALBUM123", None) instant0.

(** [requestUploadURL] fails. *)
Definition no_url : Script :=
  mkScript (Some "503 Service Unavailable") ("", None) ("", None)
    None ("", None) instant0.

(** [uploadFile] fails. *)
Definition no_upload : Script :=
  mkScript None ("", Some "broken pipe") ("", None)
    None ("", None) instant0.

(** [enablePhoto] fails. *)
Definition no_enable : Script :=
  mkScript None ("token", None) ("", Some "connection reset")
    None ("", None) instant0.

(** [enablePhoto] answers with a URL that is not of the expected form. *)
Definition bad_url : Script :=
  mkScript None ("token", None)
    ("https://lh3.googleusercontent.com/AbC-123_xyz/edit?x=1", None)
    None ("", None) instant0.

(** [createAlbum] fails. *)
Definition no_album : Script :=
  mkScript None ("token", None)
    ("https://lh3.googleusercontent.com/AbC-123_xyz", None)
    None ("", Some "connection reset") instant0.

(** ** Building the options from a file

    [path.Base] of Go: the last element of a slash-separated path, after
    the trailing slashes are dropped. *)

Fixpoint strip_trailing_slashes (s : string) : string :=
  match s with
  | EmptyString => EmptyString
  | String c s' =>
      match strip_trailing_slashes s' with
      | EmptyString => if Ascii.eqb c "/" then EmptyString else String c EmptyString
      | t => String c t
      end
  end.

Fixpoint contains_slash (s : string) : bool :=
  match s with
  | EmptyString => false
  | String c s' => Ascii.eqb c "/" || contains_slash s'
  end.

(** [path[i+1:]] for the last index [i] of a slash, [path] when there is
    none. *)
Fixpoint after_last_slash (s : string) : string :=
  match s with
  | EmptyString => EmptyString
  | String c s' =>
      if contains_slash s' then after_last_slash s'
      else if Ascii.eqb c "/" then s' else String c s'
  end.

Definition path_Base (path : string) : string :=
  if String.eqb path "" then "."
  else
    (* Strip trailing slashes. *)
    let path := strip_trailing_slashes path in
    (* Find the last element *)
    let path := after_last_slash path in
    (* If empty now, it had only slashes. *)
    if String.eqb path "" then "/" else path.

(** Arithmetic of [int64]: the result modulo [2^64], read as signed. *)
Definition wrap64 (z : Z) : Z := ((z + 2 ^ 63) mod 2 ^ 64 - 2 ^ 63)%Z.

(** An [os.FileInfo], through the methods the code calls on it. *)
Record FileInfo := mkFileInfo {
  info_Size : Z;
  info_ModTime : time_Time
}.

(** An open [*os.File]: its identity as an [io.Reader], the name it was
    opened with, and what [file.Stat()] answers. *)
Record os_File := mkFile {
  file_reader : Reader;
  file_Name : string;
  file_Stat : option FileInfo * error
}.

(** [&UploadOptions{...}]: a new object, at a pointer not in use. *)
Definition alloc (o : UploadOptions) (σ : gmap loc UploadOptions)
  : loc * gmap loc UploadOptions :=
  let p := fresh (dom σ) in (p, <[p:=o]> σ).

(** [NewUploadOptionsFromFile]: the pointer and the error returned, and
    the heap afterwards; [None] is a panic (a nil [FileInfo] with a nil
    error).  The message of [fmt.Errorf] is built with [%v] of the error
    of [Stat]. *)
Definition NewUploadOptionsFromFile (file : os_File)
    (σ : gmap loc UploadOptions)
  : option ((option loc * error) * gmap loc UploadOptions) :=
  let (info, err) := file_Stat file in
  match err with
  | Some e =>
      Some ((None,
             fmt_Errorf ("can't read file information (" +:+ e +:+ ")")), σ)
  | None =>
      match info with
      | None => None
      | Some info =>
          let (p, σ') :=
            alloc (mkUploadOptions
                     (Some (file_reader file))
                     (info_Size info)
                     (path_Base (file_Name file))
                     (wrap64 (Time_Unix (info_ModTime info) * 1000))
                     "" "") σ in
          Some ((Some p, None), σ')
      end
  end.

(** ** The calls of a run of [Upload.Upload], in the order of the code *)

Definition planned_calls {CookieCredentials W} (env : Env CookieCredentials W)
    (u : Upload CookieCredentials) (σ : gmap loc UploadOptions) (w : W)
    (o : UploadOptions) : list (Step CookieCredentials) :=
  trace_to_enablePhoto env u σ w ++ trace_move u o
  ++ (if String.eqb (AlbumName o) "" then []
      else [createAlbum u (AlbumName o)]).

Definition is_album_step {C} (s : Step C) : bool :=
  match s with
  | moveToAlbum _ _ | createAlbum _ _ => true
  | _ => false
  end.

Definition is_log {C} (s : Step C) : bool :=
  match s with log_Println _ => true | _ => false end.

Definition is_clock {C} (s : Step C) : bool :=
  match s with time_Now => true | _ => false end.

(** ** More sample inputs *)

(** Everything succeeds but [moveToAlbum]. *)
Definition no_move : Script :=
  mkScript None ("token", None)
    ("https://lh3.googleusercontent.com/AbC-123_xyz", None)
    (Some "404 Not Found") ("", None) instant0.

Definition upload_move : Upload unit := mkUpload 4%positive tt "" "".

Definition file0 : os_File :=
  mkFile 21%N "/home/ann/Pictures/IMG_0042.jpg"
    (Some (mkFileInfo 4096 (mkTime 1600000000 "2020-09-13 12:26:40 +0000 UTC")),
     None).

(** A file with a modification time before 1970. *)
Definition file_old : os_File :=
  mkFile 22%N "scan.png"
    (Some (mkFileInfo 100 (mkTime (-86400) "1969-12-31 00:00:00 +0000 UTC")),
     None).

Definition file_empty : os_File :=
  mkFile 23%N "empty.jpg"
    (Some (mkFileInfo 0 (mkTime 1600000000 "2020-09-13 12:26:40 +0000 UTC")),
     None).

Definition file_gone : os_File :=
  mkFile 24%N "gone.jpg" (None, Some "stat gone.jpg: no such file or directory").

(** ** Facts about strings *)

Lemma append_length (a b : string) :
  String.length (a +:+ b) = (String.length a + String.length b)%nat.
Proof. induction a as [|c a IH]; simpl; [reflexivity | now rewrite IH]. Qed.

Lemma append_empty_r (a : string) : a +:+ "" = a.
Proof. induction a as [|c a IH]; simpl; [reflexivity | now rewrite IH]. Qed.

Lemma substring_all (s : string) : substring 0 (String.length s) s = s.
Proof. induction s as [|c s IH]; simpl; [reflexivity | now rewrite IH]. Qed.

(** ** Facts about the matcher *)

Section Matcher.

Lemma exec_concat r1 r2 t :
  exec (Concat r1 r2) t = flat_map (exec r2) (exec r1 t).
Proof. reflexivity. Qed.

Lemma flat_map_one {A B} (f : A -> list B) (x : A) : flat_map f [x] = f x.
Proof. simpl. apply app_nil_r. Qed.

Lemma exec_capture i r t :
  exec (Capture i r) t
  = map (fun t' =>
           Thread (pos t') (rest t')
                  ((i, substring 0 (pos t' - pos t) (rest t)) :: caps t'))
        (exec r t).
Proof. reflexivity. Qed.

Lemma exec_plus_class ranges t :
  exec (Plus (CharClass ranges)) t
  = iterate (step_char (in_class ranges)) (S (String.length (rest t))) t.
Proof. reflexivity. Qed.

(** A literal consumes exactly its own text. *)
Lemma exec_literal_sound p t t' :
  In t' (exec (literal p) t) ->
  rest t = p +:+ rest t' /\ pos t' = (pos t + String.length p)%nat
  /\ caps t' = caps t.
Proof.
  revert t. induction p as [|c p IH]; intros t Hin.
  - simpl in Hin. destruct Hin as [<-|[]]. simpl. auto with arith.
  - rewrite (exec_concat (Literal c) (literal p)) in Hin.
    apply in_flat_map in Hin as (t1 & H1 & H2).
    simpl in H1. unfold step_char in H1.
    destruct (rest t) as [|c' s'] eqn:Hrest; [contradiction|].
    destruct (Ascii.eqb c c') eqn:Hc; [|contradiction].
    apply Ascii.eqb_eq in Hc as <-.
    destruct H1 as [<-|[]].
    apply IH in H2 as (Hr & Hp & Hc). simpl in *.
    rewrite Hr, Hp, Hc. repeat split. lia.
Qed.

Lemma exec_literal_complete p n s c :
  exec (literal p) (Thread n (p +:+ s) c)
  = [Thread (n + String.length p) s c].
Proof.
  revert n. induction p as [|a p IH]; intros n.
  - simpl. now rewrite Nat.add_0_r.
  - rewrite (exec_concat (Literal a) (literal p)).
    simpl. unfold step_char. simpl. rewrite Ascii.eqb_refl. simpl.
    rewrite IH, app_nil_r. f_equal. f_equal. lia.
Qed.

(** One or more characters of a class: every result consumed a
    non-empty run of characters of the class, and nothing else changed. *)
Lemma iterate_class_sound ok fuel t t' :
  In t' (iterate (step_char ok) fuel t) ->
  exists w, rest t = w +:+ rest t' /\ w <> "" /\ all_chars ok w = true
            /\ pos t' = (pos t + String.length w)%nat /\ caps t' = caps t.
Proof.
  revert t. induction fuel as [|fuel IH]; intros t Hin; [contradiction|].
  simpl in Hin. apply in_flat_map in Hin as (t1 & H1 & H2).
  unfold step_char in H1.
  destruct (rest t) as [|c s'] eqn:Hrest; [contradiction|].
  destruct (ok c) eqn:Hc; [|contradiction].
  destruct H1 as [<-|[]]. simpl in H2.
  assert (Hone : t' = Thread (S (pos t)) s' (caps t) ->
                 exists w, String c s' = w +:+ rest t' /\ w <> ""
                           /\ all_chars ok w = true
                           /\ pos t' = (pos t + String.length w)%nat
                           /\ caps t' = caps t).
  { intros ->. exists (String c ""). simpl. rewrite Hc.
    repeat split; [discriminate | lia]. }
  destruct (String.length s' <? S (String.length s'))%nat.
  - apply in_app_or in H2 as [H2|[H2|[]]]; [|now apply Hone].
    apply IH in H2 as (w & Hr & _ & Hw & Hp & Hcs). simpl in *.
    exists (String c w). simpl. rewrite Hr, Hc, Hw, Hp, Hcs.
    repeat split; [discriminate | lia].
  - destruct H2 as [H2|[]]. now apply Hone.
Qed.

(** Greedy: on a text made of characters of the class only, the
    preferred result consumes all of it. *)
Lemma iterate_class_greedy ok w : forall fuel n c,
  w <> "" -> all_chars ok w = true -> (String.length w < fuel)%nat ->
  exists tl, iterate (step_char ok) fuel (Thread n w c)
             = Thread (n + String.length w) "" c :: tl.
Proof.
  induction w as [|a w IH]; intros fuel n c Hne Hall Hfuel; [congruence|].
  destruct fuel as [|fuel]; [lia|].
  simpl in Hall. apply andb_prop in Hall as [Ha Hw].
  change (iterate (step_char ok) (S fuel) (Thread n (String a w) c))
    with (flat_map
            (fun t' =>
               if (String.length (rest t') <? S (String.length w))%nat
               then iterate (step_char ok) fuel t' ++ [t'] else [t'])
            (if ok a then [Thread (S n) w c] else [])).
  rewrite Ha. simpl flat_map.
  assert (Hlt : (String.length w <? S (String.length w))%nat = true)
    by (apply Nat.ltb_lt; lia).
  rewrite Hlt, app_nil_r.
  destruct w as [|b w'].
  - destruct fuel; simpl; eexists; rewrite Nat.add_1_r; reflexivity.
  - destruct (IH fuel (S n) c) as [tl Htl];
      [discriminate | assumption | simpl in *; lia |].
    rewrite Htl. eexists. simpl. f_equal. f_equal. lia.
Qed.

End Matcher.

(** The shape of [RegexUploadedImageURL]: the whole text is a fixed
    prefix followed by one captured, non-empty run of a class. *)

Section AnchoredPattern.

Variable p : string.
Variable ranges : list (ascii * ascii).

Let tail : regex := Concat (Capture 1 (Plus (CharClass ranges))) EndText.
Let pattern : regex := Concat BeginText (Concat (literal p) tail).

Lemma search_eq re start s :
  search re start s =
  match exec re (Thread start s []) with
  | t :: _ =>
      substring 0 (pos t - start) s
        :: map (fun i => group i t) (seq 1 (NumSubexp re))
  | [] =>
      match s with
      | String _ s' => search re (S start) s'
      | EmptyString => []
      end
  end.
Proof. destruct s; reflexivity. Qed.

Lemma NumSubexp_literal s : NumSubexp (literal s) = 0.
Proof. induction s as [|c s IH]; simpl; [reflexivity | exact IH]. Qed.

Lemma NumSubexp_pattern : NumSubexp pattern = 1.
Proof. simpl. now rewrite NumSubexp_literal. Qed.

Lemma tail_sound t t' :
  In t' (exec tail t) ->
  rest t <> "" /\ all_chars (in_class ranges) (rest t) = true
  /\ t' = Thread (pos t + String.length (rest t)) "" ((1, rest t) :: caps t).
Proof.
  intros Hin. unfold tail in Hin. rewrite exec_concat in Hin.
  apply in_flat_map in Hin as (t2 & H2 & Hend).
  rewrite exec_capture, exec_plus_class in H2.
  apply in_map_iff in H2 as (t1 & <- & H1).
  apply iterate_class_sound in H1 as (w & Hr & Hne & Hall & Hp & Hc).
  simpl in Hend. destruct (rest t1) eqn:Hr1; [|contradiction].
  destruct Hend as [<-|[]].
  rewrite append_empty_r in Hr. subst w.
  rewrite Hp, Hc.
  replace (pos t + String.length (rest t) - pos t)%nat
    with (String.length (rest t)) by lia.
  now rewrite substring_all.
Qed.

Lemma tail_complete n id c :
  id <> "" -> all_chars (in_class ranges) id = true ->
  exists tl, exec tail (Thread n id c)
             = Thread (n + String.length id) "" ((1, id) :: c) :: tl.
Proof.
  intros Hne Hall.
  destruct (iterate_class_greedy (in_class ranges) id
              (S (String.length id)) n c Hne Hall) as [tl Htl]; [lia|].
  unfold tail. rewrite exec_concat.
  rewrite exec_capture, exec_plus_class.
  cbn [rest pos]. rewrite Htl. simpl.
  replace (n + String.length id - n)%nat with (String.length id) by lia.
  rewrite substring_all. eauto.
Qed.

Lemma pattern_sound n u t :
  In t (exec pattern (Thread n u [])) ->
  n = 0%nat /\
  exists id, u = p +:+ id /\ id <> ""
             /\ all_chars (in_class ranges) id = true
             /\ t = Thread (String.length u) "" [(1, id)].
Proof.
  intros Hin. unfold pattern in Hin. rewrite exec_concat in Hin.
  apply in_flat_map in Hin as (t0 & H0 & Hin).
  simpl in H0. destruct (Nat.eqb_spec n 0) as [->|]; [|contradiction].
  destruct H0 as [<-|[]]. split; [reflexivity|].
  rewrite exec_concat in Hin.
  apply in_flat_map in Hin as (t1 & H1 & Hin).
  apply exec_literal_sound in H1 as (Hr & Hp & Hc). simpl in Hr, Hp, Hc.
  apply tail_sound in Hin as (Hne & Hall & ->).
  exists (rest t1). rewrite Hr, Hp, Hc, append_length. auto.
Qed.

Lemma pattern_complete id :
  id <> "" -> all_chars (in_class ranges) id = true ->
  exists tl, exec pattern (Thread 0 (p +:+ id) [])
             = Thread (String.length (p +:+ id)) "" [(1, id)] :: tl.
Proof.
  intros Hne Hall. unfold pattern.
  rewrite exec_concat.
  change (exec BeginText (Thread 0 (p +:+ id) []))
    with [Thread 0 (p +:+ id) []].
  rewrite flat_map_one, exec_concat, exec_literal_complete, flat_map_one.
  rewrite append_length.
  now apply tail_complete.
Qed.

(** Anchored at the start: no match begins at a later offset. *)
Lemma search_pattern_later s : forall n, search pattern (S n) s = [].
Proof.
  induction s as [|c s IH]; intros n; rewrite search_eq;
    destruct (exec pattern (Thread (S n) _ [])) as [|t l] eqn:He;
    try reflexivity; try apply IH;
    (assert (Hin : In t (exec pattern (Thread (S n) _ [])))
       by (rewrite He; left; reflexivity));
    apply pattern_sound in Hin as [Hn _]; discriminate Hn.
Qed.

Lemma FindStringSubmatch_match id :
  id <> "" -> all_chars (in_class ranges) id = true ->
  FindStringSubmatch pattern (p +:+ id) = [p +:+ id; id].
Proof.
  intros Hne Hall. unfold FindStringSubmatch. rewrite search_eq.
  destruct (pattern_complete id Hne Hall) as [tl ->].
  rewrite NumSubexp_pattern. simpl.
  now rewrite Nat.sub_0_r, substring_all.
Qed.

Lemma FindStringSubmatch_inv u :
  FindStringSubmatch pattern u = []
  \/ exists id, u = p +:+ id /\ id <> ""
                /\ all_chars (in_class ranges) id = true
                /\ FindStringSubmatch pattern u = [u; id].
Proof.
  unfold FindStringSubmatch. rewrite search_eq.
  destruct (exec pattern (Thread 0 u [])) as [|t l] eqn:He.
  - left. destruct u; [reflexivity | apply search_pattern_later].
  - right.
    assert (Hin : In t (exec pattern (Thread 0 u [])))
      by (rewrite He; left; reflexivity).
    apply pattern_sound in Hin as (_ & id & Hu & Hne & Hall & ->).
    exists id. repeat split; try assumption.
    rewrite NumSubexp_pattern. simpl.
    now rewrite Nat.sub_0_r, substring_all.
Qed.

End AnchoredPattern.

(** ** Identifier extraction and reconstruction *)

Lemma RegexUploadedImageURL_inv URL :
  FindStringSubmatch RegexUploadedImageURL URL = []
  \/ exists id, URL = "https://lh3.googleusercontent.com/" +:+ id
                /\ id <> "" /\ all_chars id_char id = true
                /\ FindStringSubmatch RegexUploadedImageURL URL = [URL; id].
Proof.
  exact (FindStringSubmatch_inv "https://lh3.googleusercontent.com/"
           (perl_w ++ [("-", "-")%char]) URL).
Qed.

Lemma RegexUploadedImageURL_match id :
  id <> "" -> all_chars id_char id = true ->
  FindStringSubmatch RegexUploadedImageURL
    ("https://lh3.googleusercontent.com/" +:+ id)
  = ["https://lh3.googleusercontent.com/" +:+ id; id].
Proof.
  exact (FindStringSubmatch_match "https://lh3.googleusercontent.com/"
           (perl_w ++ [("-", "-")%char]) id).
Qed.

(** Extraction either fails with its own error or returns the text after
    the fixed prefix; it never panics. *)
Lemma getImageIDFromURL_cases URL :
  (FindStringSubmatch RegexUploadedImageURL URL = []
   /\ getImageIDFromURL URL
      = Some ("", fmt_Errorf "url doesn't contain the image id"))
  \/ exists id, URL = "https://lh3.googleusercontent.com/" +:+ id
                /\ id <> "" /\ all_chars id_char id = true
                /\ getImageIDFromURL URL = Some (id, None).
Proof.
  unfold getImageIDFromURL.
  destruct (RegexUploadedImageURL_inv URL) as [->|(id & Hu & Hne & Hall & ->)].
  - left. split; reflexivity.
  - right. exists id. repeat split; assumption.
Qed.

Lemma getImageIDFromURL_match id :
  id <> "" -> all_chars id_char id = true ->
  getImageIDFromURL ("https://lh3.googleusercontent.com/" +:+ id)
  = Some (id, None).
Proof.
  intros Hne Hall. unfold getImageIDFromURL.
  now rewrite (RegexUploadedImageURL_match id Hne Hall).
Qed.

Lemma getImageIDFromURL_ok_inv URL id :
  getImageIDFromURL URL = Some (id, None) ->
  URL = "https://lh3.googleusercontent.com/" +:+ id
  /\ id <> "" /\ all_chars id_char id = true.
Proof.
  intros H.
  destruct (getImageIDFromURL_cases URL) as [[_ He]|(id' & Hu & Hne & Hall & He)];
    rewrite He in H; [discriminate|].
  injection H as <-. auto.
Qed.

(** C9: on ["https://lh3.googleusercontent.com/AbC-123_xyz"] extraction
    returns ["AbC-123_xyz"] and a nil error.  On every URL for which
    [FindStringSubmatch] returns anything but two strings, and on every
    URL that is not the fixed prefix followed by a non-empty run of
    letters, digits, [_] and [-], extraction returns the empty
    identifier with the error "url doesn't contain the image id", which
    is not nil.  Extraction never panics, and its error is nil exactly
    when two strings were returned. *)
Theorem getImageIDFromURL_spec :
  getImageIDFromURL "https://lh3.googleusercontent.com/AbC-123_xyz"
  = Some ("AbC-123_xyz", None)
  /\ (forall URL,
        List.length (FindStringSubmatch RegexUploadedImageURL URL) <> 2%nat ->
        getImageIDFromURL URL
        = Some ("", Some "url doesn't contain the image id"))
  /\ (forall URL,
        ~ (exists id,
             URL = "https://lh3.googleusercontent.com/" +:+ id
             /\ id <> "" /\ all_chars id_char id = true) ->
        FindStringSubmatch RegexUploadedImageURL URL = []
        /\ getImageIDFromURL URL
           = Some ("", Some "url doesn't contain the image id"))
  /\ (forall URL,
        exists id err,
          getImageIDFromURL URL = Some (id, err)
          /\ (err = None
              <-> List.length (FindStringSubmatch RegexUploadedImageURL URL)
                  = 2%nat)
          /\ (err <> None ->
              id = "" /\ err = Some "url doesn't contain the image id")).
Proof.
  split; [vm_compute; reflexivity|]. split; [|split].
  - intros URL Hlen. unfold getImageIDFromURL.
    destruct (Nat.eqb_spec
                (List.length (FindStringSubmatch RegexUploadedImageURL URL)) 2);
      [contradiction | reflexivity].
  - intros URL Hno.
    destruct (getImageIDFromURL_cases URL)
      as [[Hnil He]|(id & Hu & Hne & Hall & _)].
    + split; [exact Hnil | exact He].
    + exfalso. apply Hno. exists id. auto.
  - intros URL.
    destruct (RegexUploadedImageURL_inv URL)
      as [Hnil|(id & Hu & Hne & Hall & Hm)].
    + exists "", (Some "url doesn't contain the image id").
      unfold getImageIDFromURL. rewrite Hnil. cbn.
      repeat split; try discriminate; auto.
    + exists id, None.
      unfold getImageIDFromURL. rewrite Hm. cbn.
      repeat split; try discriminate; auto; congruence.
Qed.

Lemma getImageIDFromURL_spec_witness :
  List.length (FindStringSubmatch RegexUploadedImageURL
                 "https://lh3.googleusercontent.com/AbC-123_xyz/edit?x=1")
  <> 2%nat
  /\ getImageIDFromURL "https://lh3.googleusercontent.com/AbC-123_xyz/edit?x=1"
     = Some ("", Some "url doesn't contain the image id").
Proof.
  assert (H : List.length
                (FindStringSubmatch RegexUploadedImageURL
                   "https://lh3.googleusercontent.com/AbC-123_xyz/edit?x=1")
              <> 2%nat) by (vm_compute; discriminate).
  split; [exact H|].
  exact (proj1 (proj2 getImageIDFromURL_spec) _ H).
Defined.

(** C10: when extraction succeeds on [URL] with identifier [id],
    [URLString] of a result holding [id] gives [URL] back. *)
Theorem URLString_getImageIDFromURL URL id ur :
  getImageIDFromURL URL = Some (id, None) ->
  ImageID ur = id ->
  URLString ur = URL.
Proof.
  intros H Hid. apply getImageIDFromURL_ok_inv in H as (-> & _).
  unfold URLString. now rewrite Hid.
Qed.

Lemma URLString_getImageIDFromURL_witness :
  getImageIDFromURL "https://lh3.googleusercontent.com/AbC-123_xyz"
  = Some ("AbC-123_xyz", None)
  /\ URLString (mkUploadResult true "AbC-123_xyz"
                  "https://lh3.googleusercontent.com/AbC-123_xyz" "")
     = "https://lh3.googleusercontent.com/AbC-123_xyz".
Proof.
  assert (H : getImageIDFromURL "https://lh3.googleusercontent.com/AbC-123_xyz"
              = Some ("AbC-123_xyz", None)) by (vm_compute; reflexivity).
  split; [exact H|].
  exact (URLString_getImageIDFromURL _ _
           (mkUploadResult true "AbC-123_xyz"
              "https://lh3.googleusercontent.com/AbC-123_xyz" "")
           H eq_refl).
Defined.

(** ** Running programs *)

Section RunFacts.

Context {CookieCredentials W : Type}.
Variable env : Env CookieCredentials W.

Lemma run_ret {A} (a : A) σ w tr :
  run env (@Ret CookieCredentials A a) σ w tr = Some (mkOutcome a σ w tr).
Proof. reflexivity. Qed.

Lemma run_get {A} p (k : UploadOptions -> Prog CookieCredentials A)
    o σ w tr :
  σ !! p = Some o ->
  run env (Get p k) σ w tr = run env (k o) σ w tr.
Proof. intros H. simpl. now rewrite H. Qed.

Lemma run_put {A} p o' (k : Prog CookieCredentials A) o σ w tr :
  σ !! p = Some o ->
  run env (Put p o' k) σ w tr = run env k (<[p:=o']> σ) w tr.
Proof. intros H. simpl. now rewrite H. Qed.

Lemma run_call {A} s (k : Resp CookieCredentials s -> Prog CookieCredentials A)
    σ w tr :
  run env (Call s k) σ w tr
  = run env (k (fst (env s σ w))) σ (snd (env s σ w)) (tr ++ [s]).
Proof. simpl. now destruct (env s σ w). Qed.

Lemma run_bind {A B} (m : Prog CookieCredentials A)
    (f : A -> Prog CookieCredentials B) : forall σ w tr,
  run env (bind _ m f) σ w tr
  = match run env m σ w tr with
    | Some o => run env (f (result o)) (heap o) (world o) (trace o)
    | None => None
    end.
Proof.
  induction m as [a| |s k IH|p k IH|p o k IH]; intros σ w tr; simpl.
  - reflexivity.
  - reflexivity.
  - destruct (env s σ w) as [x w']. apply IH.
  - destruct (σ !! p); [apply IH | reflexivity].
  - destruct (σ !! p); [apply IH | reflexivity].
Qed.

End RunFacts.

#[local] Arguments run : simpl never.

Ltac unfold_answers :=
  unfold full_success, answer_createAlbum, world_after_move,
    trace_to_enablePhoto, trace_move, answer_enablePhoto, token,
    answer_uploadFile, answer_requestUploadURL in *;
  cbn in *; unfold error in *.

Ltac run_step :=
  first [ rewrite run_ret
        | rewrite run_call
        | erewrite run_get by (eassumption || apply lookup_insert_eq)
        | erewrite run_put by (eassumption || apply lookup_insert_eq) ];
  cbn; unfold error.

(** ** The paths of [Upload.Upload] *)

Section UploadPaths.

Context {CookieCredentials W : Type}.
Variables (env : Env CookieCredentials W) (u : Upload CookieCredentials).
Variables (σ : gmap loc UploadOptions) (w : W).

Local Abbreviation a1 := (answer_requestUploadURL env u σ w).
Local Abbreviation a2 := (answer_uploadFile env u σ w).
Local Abbreviation a3 := (answer_enablePhoto env u σ w).
Local Abbreviation a4 := (answer_createAlbum env u σ w).

Lemma Upload_path_requestUploadURL e :
  fst a1 = Some e ->
  run env (Upload_Upload u) σ w []
  = Some (mkOutcome
            (mkUploadResult false "" "" "",
             errors_New "can't get an upload url")
            σ (snd a1) [requestUploadURL u]).
Proof.
  unfold_answers. intros H1. unfold Upload_Upload. cbn.
  run_step. rewrite H1. now run_step.
Qed.

Lemma Upload_path_uploadFile e :
  fst a1 = None -> snd (fst a2) = Some e ->
  run env (Upload_Upload u) σ w []
  = Some (mkOutcome
            (mkUploadResult false "" "" "",
             errors_New "can't upload file to the url obtained from the previously request")
            σ (snd a2) [requestUploadURL u; uploadFile u]).
Proof.
  unfold_answers. intros H1 H2. unfold Upload_Upload. cbn.
  run_step. rewrite H1. run_step. rewrite H2. now run_step.
Qed.

Lemma Upload_path_enablePhoto e :
  fst a1 = None -> snd (fst a2) = None -> snd (fst a3) = Some e ->
  run env (Upload_Upload u) σ w []
  = Some (mkOutcome
            (mkUploadResult true "" "" "", Some e)
            σ
            (snd (env (log_Println "[WARNING] The file has been uploaded, but the image url in the reply was not found. The image may not appear.") σ (snd a3)))
            (trace_to_enablePhoto env u σ w ++
             [log_Println "[WARNING] The file has been uploaded, but the image url in the reply was not found. The image may not appear."])).
Proof.
  unfold_answers. intros H1 H2 H3. unfold Upload_Upload. cbn.
  run_step. rewrite H1. run_step. rewrite H2. run_step. rewrite H3.
  run_step. now run_step.
Qed.

Lemma Upload_path_getImageIDFromURL x e :
  fst a1 = None -> snd (fst a2) = None -> snd (fst a3) = None ->
  getImageIDFromURL (fst (fst a3)) = Some (x, Some e) ->
  run env (Upload_Upload u) σ w []
  = Some (mkOutcome
            (mkUploadResult true "" (fst (fst a3)) "", Some e)
            σ
            (snd (env (log_Println "[WARNING] the file has been uploaded, but the image URL does not contain its id. The image may not appear.") σ (snd a3)))
            (trace_to_enablePhoto env u σ w ++
             [log_Println "[WARNING] the file has been uploaded, but the image URL does not contain its id. The image may not appear."])).
Proof.
  unfold_answers. intros H1 H2 H3 H4. unfold Upload_Upload. cbn.
  run_step. rewrite H1. run_step. rewrite H2. run_step. rewrite H3.
  rewrite H4. cbn. run_step. now run_step.
Qed.

Lemma Upload_path_done o id :
  σ !! Options u = Some o ->
  fst a1 = None -> snd (fst a2) = None -> snd (fst a3) = None ->
  getImageIDFromURL (fst (fst a3)) = Some (id, None) ->
  AlbumName o = "" ->
  run env (Upload_Upload u) σ w []
  = Some (mkOutcome
            (mkUploadResult true id (fst (fst a3)) "", None)
            σ (world_after_move env u σ w o)
            (trace_to_enablePhoto env u σ w ++ trace_move u o)).
Proof.
  unfold_answers. intros Hσ H1 H2 H3 H4 Hn. unfold Upload_Upload. cbn.
  run_step. rewrite H1. run_step. rewrite H2. run_step. rewrite H3.
  rewrite H4. cbn. run_step.
  destruct (AlbumId o =? "")%string; cbn; repeat run_step;
    rewrite Hn; cbn; now run_step.
Qed.

Lemma Upload_path_createAlbum o id :
  σ !! Options u = Some o ->
  fst a1 = None -> snd (fst a2) = None -> snd (fst a3) = None ->
  getImageIDFromURL (fst (fst a3)) = Some (id, None) ->
  AlbumName o <> "" -> snd (fst (a4 o)) = None ->
  run env (Upload_Upload u) σ w []
  = Some (mkOutcome
            (mkUploadResult true id (fst (fst a3)) (fst (fst (a4 o))), None)
            σ (snd (a4 o))
            (trace_to_enablePhoto env u σ w ++ trace_move u o
             ++ [createAlbum u (AlbumName o)])).
Proof.
  unfold_answers. intros Hσ H1 H2 H3 H4 Hn H5. unfold Upload_Upload. cbn.
  run_step. rewrite H1. run_step. rewrite H2. run_step. rewrite H3.
  rewrite H4. cbn. run_step.
  apply String.eqb_neq in Hn.
  destruct (AlbumId o =? "")%string; cbn; repeat run_step;
    rewrite Hn; cbn; repeat run_step; rewrite H5; now run_step.
Qed.

Lemma Upload_path_createAlbum_failed o id e :
  σ !! Options u = Some o ->
  fst a1 = None -> snd (fst a2) = None -> snd (fst a3) = None ->
  getImageIDFromURL (fst (fst a3)) = Some (id, None) ->
  AlbumName o <> "" -> snd (fst (a4 o)) = Some e ->
  run env (Upload_Upload u) σ w []
  = Some (mkOutcome
            (mkUploadResult true id (fst (fst a3)) "", Some e)
            σ
            (snd (env (log_Println "[WARNING] the file has been uploaded, but the album hasn't been created.") σ (snd (a4 o))))
            (trace_to_enablePhoto env u σ w ++ trace_move u o
             ++ [createAlbum u (AlbumName o);
                 log_Println "[WARNING] the file has been uploaded, but the album hasn't been created."])).
Proof.
  unfold_answers. intros Hσ H1 H2 H3 H4 Hn H5. unfold Upload_Upload. cbn.
  run_step. rewrite H1. run_step. rewrite H2. run_step. rewrite H3.
  rewrite H4. cbn. run_step.
  apply String.eqb_neq in Hn.
  destruct (AlbumId o =? "")%string; cbn; repeat run_step;
    rewrite Hn; cbn; repeat run_step; rewrite H5; run_step; now run_step.
Qed.

End UploadPaths.

(** ** The paths of [NewUpload] *)

Section NewUploadPaths.

Context {CookieCredentials W : Type}.
Variables (env : Env CookieCredentials W).
Variables (p : loc) (c : CookieCredentials).
Variables (σ : gmap loc UploadOptions) (w : W) (o : UploadOptions).
Hypothesis Hp : σ !! p = Some o.

Ltac unfold_readings :=
  unfold trace_filled, world_filled, filled, now_for_Timestamp,
    world_named, heap_named, named, now_for_Name in *.

Lemma NewUpload_nil_stream :
  Stream o = None ->
  run env (NewUpload p c) σ w []
  = Some (mkOutcome
            (None, errors_New "the stream of the UploadOptions is nil")
            σ w []).
Proof.
  intros Hs. unfold NewUpload. cbn. run_step. rewrite Hs. now run_step.
Qed.

Lemma NewUpload_bad_size :
  Stream o <> None -> (FileSize o <= 0)%Z ->
  run env (NewUpload p c) σ w []
  = Some (mkOutcome
            (None, errors_New "the fileSize of the UploadOptions is <= 0")
            σ w []).
Proof.
  intros Hs Hz. unfold NewUpload. cbn. run_step.
  destruct (Stream o) as [r|]; [|congruence]. cbn. run_step.
  apply Z.leb_le in Hz. rewrite Hz. now run_step.
Qed.

Lemma NewUpload_accepts :
  Stream o <> None -> (0 < FileSize o)%Z ->
  run env (NewUpload p c) σ w []
  = Some (mkOutcome
            (Some (mkUpload p c "" ""), None)
            (<[p:=filled env p σ w o]> σ)
            (world_filled env p σ w o)
            (trace_filled (CookieCredentials:=CookieCredentials) o)).
Proof.
  intros Hs Hz. unfold NewUpload. cbn. run_step.
  destruct (Stream o) as [r|]; [|congruence]. cbn. run_step.
  apply Z.leb_gt in Hz. rewrite Hz. cbn. run_step.
  unfold_readings.
  destruct (Name o =? "")%string; cbn; repeat run_step;
    destruct (Timestamp o <? 0)%Z eqn:Ht; cbn; repeat run_step;
    rewrite ?Ht; cbn; repeat run_step;
    rewrite ?insert_insert_eq, ?(insert_id σ p o Hp); reflexivity.
Qed.

End NewUploadPaths.

(** ** The workflow *)

Section UploadSpec.

Context {CookieCredentials W : Type}.
Variables (env : Env CookieCredentials W) (u : Upload CookieCredentials).
Variables (σ : gmap loc UploadOptions) (w : W).

Local Abbreviation a1 := (answer_requestUploadURL env u σ w).
Local Abbreviation a2 := (answer_uploadFile env u σ w).
Local Abbreviation a3 := (answer_enablePhoto env u σ w).
Local Abbreviation a4 := (answer_createAlbum env u σ w).


(** C1: [Upload.Upload] returns a nil error exactly when steps 1 to 3,
    the extraction of the identifier and the creation of the album (when
    a name is set) all succeed; the result is then
    [{true, id, url, album}], where [url] is what [enablePhoto]
    returned, [id] the identifier extracted from it, and [album] the
    identifier of the created album, or the empty string when no album
    name is set. *)
Theorem Upload_nil_error o :
  σ !! Options u = Some o ->
  exists out,
    run env (Upload_Upload u) σ w [] = Some out
    /\ (snd (result out) = None <-> full_success env u σ w o)
    /\ (full_success env u σ w o ->
        exists id,
          getImageIDFromURL (fst (fst a3)) = Some (id, None)
          /\ fst (fst a3) = "https://lh3.googleusercontent.com/" +:+ id
          /\ fst (result out)
             = mkUploadResult true id (fst (fst a3))
                 (if String.eqb (AlbumName o) "" then ""
                  else fst (fst (a4 o)))).
Proof.
  intros Hσ. unfold full_success.
  destruct (fst a1) as [e1|] eqn:H1.
  { eexists. split; [eapply Upload_path_requestUploadURL; eassumption|].
    cbn [result fst snd]. split; [split|]; [discriminate | intros (? & _) ..]; discriminate. }
  destruct (snd (fst a2)) as [e2|] eqn:H2.
  { eexists. split; [eapply Upload_path_uploadFile; eassumption|].
    cbn [result fst snd]. split; [split|];
      [discriminate | intros (_ & ? & _) ..]; discriminate. }
  destruct (snd (fst a3)) as [e3|] eqn:H3.
  { eexists. split; [eapply Upload_path_enablePhoto; eassumption|].
    cbn [result fst snd]. split; [split|];
      [discriminate | intros (_ & _ & ? & _) ..]; discriminate. }
  destruct (getImageIDFromURL_cases (fst (fst a3)))
    as [[_ H4]|(id & Hurl & _ & _ & H4)].
  { eexists. split; [eapply Upload_path_getImageIDFromURL; eassumption|].
    cbn [result fst snd]. split; [split|];
      [discriminate | intros (_ & _ & _ & (id & Hid) & _) ..];
      rewrite H4 in Hid; discriminate. }
  destruct (String.eqb_spec (AlbumName o) "") as [Hn|Hn].
  { eexists. split; [eapply Upload_path_done; eassumption|].
    cbn [result fst snd]. split; [split; [eauto 10 | reflexivity]|].
    intros _. exists id. auto. }
  destruct (snd (fst (a4 o))) as [e5|] eqn:H5.
  { eexists. split; [eapply Upload_path_createAlbum_failed; eassumption|].
    cbn [result fst snd]. split; [split|];
      [discriminate | intros (_ & _ & _ & _ & [?|?]) ..];
      congruence. }
  eexists. split; [eapply Upload_path_createAlbum; eassumption|].
  cbn [result fst snd]. split; [split; [eauto 10 | reflexivity]|].
  intros _. exists id. auto.
Qed.

(** C2: after steps 1 and 2 succeeded, a failing [enablePhoto] gives
    [{true, "", "", ""}] with the error of [enablePhoto], and a URL that
    [RegexUploadedImageURL] does not match gives [{true, "", url, ""}]
    with the error "url doesn't contain the image id"; in both cases the last call is a line of the log at
    warning level. *)
Theorem Upload_enablePhoto_failures :
  fst a1 = None -> snd (fst a2) = None ->
  (forall e, snd (fst a3) = Some e ->
     exists out msg,
       run env (Upload_Upload u) σ w [] = Some out
       /\ result out = (mkUploadResult true "" "" "", Some e)
       /\ trace out = trace_to_enablePhoto env u σ w ++ [log_Println msg]
       /\ is_warning (log_Println (CookieCredentials:=CookieCredentials) msg)
          = true)
  /\ (snd (fst a3) = None ->
      FindStringSubmatch RegexUploadedImageURL (fst (fst a3)) = [] ->
      exists out msg,
        run env (Upload_Upload u) σ w [] = Some out
        /\ result out
           = (mkUploadResult true "" (fst (fst a3)) "",
              fmt_Errorf "url doesn't contain the image id")
        /\ trace out = trace_to_enablePhoto env u σ w ++ [log_Println msg]
        /\ is_warning (log_Println (CookieCredentials:=CookieCredentials) msg)
           = true).
Proof.
  intros H1 H2. split.
  - intros e H3. do 2 eexists.
    split; [eapply Upload_path_enablePhoto; eassumption|].
    cbn. repeat split.
  - intros H3 Hno.
    destruct (getImageIDFromURL_cases (fst (fst a3)))
      as [[_ H4]|(id & Hurl & Hne & Hall & _)].
    + do 2 eexists.
      split; [eapply Upload_path_getImageIDFromURL; eassumption|].
      cbn. repeat split.
    + rewrite Hurl, (RegexUploadedImageURL_match id Hne Hall) in Hno.
      discriminate.
Qed.

(** C3: when [requestUploadURL] or [uploadFile] fails, the result has
    [Uploaded = false], the error is not nil, and none of
    [enablePhoto], [moveToAlbum] and [createAlbum] is called. *)
Theorem Upload_aborts :
  fst a1 <> None \/ (fst a1 = None /\ snd (fst a2) <> None) ->
  exists out,
    run env (Upload_Upload u) σ w [] = Some out
    /\ fst (result out) = mkUploadResult false "" "" ""
    /\ Uploaded (fst (result out)) = false
    /\ snd (result out) <> None
    /\ existsb later_step (trace out) = false.
Proof.
  intros [H1|[H1 H2]].
  - destruct (fst a1) as [e|] eqn:E1; [|congruence].
    eexists. split; [eapply Upload_path_requestUploadURL; eassumption|].
    cbn. repeat split. discriminate.
  - destruct (snd (fst a2)) as [e|] eqn:E2; [|congruence].
    eexists. split; [eapply Upload_path_uploadFile; eassumption|].
    cbn. repeat split. discriminate.
Qed.

(** C4: with an album name set, after steps 1 to 3 and the extraction
    succeeded: a failing [createAlbum] gives [{true, id, url, ""}] with
    its error, and a successful one gives [{true, id, url, album}]
    with the identifier it returned. *)
Theorem Upload_createAlbum o id :
  σ !! Options u = Some o ->
  fst a1 = None -> snd (fst a2) = None -> snd (fst a3) = None ->
  getImageIDFromURL (fst (fst a3)) = Some (id, None) ->
  AlbumName o <> "" ->
  exists out,
    run env (Upload_Upload u) σ w [] = Some out
    /\ In (createAlbum u (AlbumName o)) (trace out)
    /\ (forall e, snd (fst (a4 o)) = Some e ->
          result out = (mkUploadResult true id (fst (fst a3)) "", Some e))
    /\ (snd (fst (a4 o)) = None ->
          result out
          = (mkUploadResult true id (fst (fst a3)) (fst (fst (a4 o))),
             None)).
Proof.
  intros Hσ H1 H2 H3 H4 Hn.
  destruct (snd (fst (a4 o))) as [e5|] eqn:H5.
  - eexists. split; [eapply Upload_path_createAlbum_failed; eassumption|].
    cbn [result trace]. split; [|split; [intros e [= <-]; reflexivity | discriminate]].
    apply in_or_app. right. apply in_or_app. right. now left.
  - eexists. split; [eapply Upload_path_createAlbum; eassumption|].
    cbn [result trace]. split; [|split; [discriminate | reflexivity]].
    apply in_or_app. right. apply in_or_app. right. now left.
Qed.

End UploadSpec.

Section UploadErrors.

Context {CookieCredentials W : Type}.
Variables (env : Env CookieCredentials W) (u : Upload CookieCredentials).
Variables (σ : gmap loc UploadOptions) (w : W).

Local Abbreviation a1 := (answer_requestUploadURL env u σ w).
Local Abbreviation a2 := (answer_uploadFile env u σ w).
Local Abbreviation a3 := (answer_enablePhoto env u σ w).
Local Abbreviation a4 := (answer_createAlbum env u σ w).

(** The error returned and the last call made. *)
Local Abbreviation returned :=
  ((fun out => (snd (result out), last (trace out)))
     <$> run env (Upload_Upload u) σ w []).

(** C8, amended: a failure of step 1 or of step 2 is returned as a fixed
    error that names the phase and replaces the underlying one; a
    failure of [enablePhoto] or of [createAlbum] is returned as the
    underlying error itself, and the phase is named by the warning
    written to the log just before returning. *)
Theorem Upload_error_origin :
  (fst a1 <> None ->
   returned = Some (Some "can't get an upload url",
                    Some (requestUploadURL u)))
  /\ (fst a1 = None -> snd (fst a2) <> None ->
      returned
      = Some (Some "can't upload file to the url obtained from the previously request",
              Some (uploadFile u)))
  /\ (forall e,
        fst a1 = None -> snd (fst a2) = None -> snd (fst a3) = Some e ->
        returned
        = Some (Some e,
                Some (log_Println "[WARNING] The file has been uploaded, but the image url in the reply was not found. The image may not appear.")))
  /\ (forall o id e,
        σ !! Options u = Some o ->
        fst a1 = None -> snd (fst a2) = None -> snd (fst a3) = None ->
        getImageIDFromURL (fst (fst a3)) = Some (id, None) ->
        AlbumName o <> "" -> snd (fst (a4 o)) = Some e ->
        returned
        = Some (Some e,
                Some (log_Println "[WARNING] the file has been uploaded, but the album hasn't been created."))).
Proof.
  repeat split.
  - intros H1. destruct (fst a1) as [e|] eqn:E1; [|congruence].
    now erewrite Upload_path_requestUploadURL by eassumption.
  - intros H1 H2. destruct (snd (fst a2)) as [e|] eqn:E2; [|congruence].
    now erewrite Upload_path_uploadFile by eassumption.
  - intros e H1 H2 H3.
    now erewrite Upload_path_enablePhoto by eassumption.
  - intros o id e Hσ H1 H2 H3 H4 Hn H5.
    erewrite Upload_path_createAlbum_failed by eassumption.
    cbn [fmap option_fmap option_map result trace snd].
    do 2 f_equal. unfold trace_to_enablePhoto.
    rewrite !app_assoc.
    change [createAlbum u (AlbumName o);
            log_Println "[WARNING] the file has been uploaded, but the album hasn't been created."]
      with ([createAlbum u (AlbumName o)]
            ++ [log_Println (CookieCredentials:=CookieCredentials) "[WARNING] the file has been uploaded, but the album hasn't been created."]).
    rewrite app_assoc. apply last_snoc.
Qed.

End UploadErrors.

Section NewUploadSpec.

Context {CookieCredentials W : Type}.
Variables (env : Env CookieCredentials W).
Variables (p : loc) (c : CookieCredentials).
Variables (σ : gmap loc UploadOptions) (w : W) (o : UploadOptions).

(** C5: on options with a nil stream or a file size that is not
    positive, [NewUpload] returns no [Upload] and an error, having made
    no call and changed nothing. *)
Theorem NewUpload_validation :
  σ !! p = Some o ->
  Stream o = None \/ (FileSize o <= 0)%Z ->
  exists e,
    run env (NewUpload p c) σ w []
    = Some (mkOutcome (None, Some e) σ w []).
Proof.
  intros Hp Hbad.
  destruct (Stream o) as [r|] eqn:Hs.
  - destruct Hbad as [|Hz]; [discriminate|].
    eexists. apply (NewUpload_bad_size env p c σ w o);
      [assumption | congruence | assumption].
  - eexists. now apply (NewUpload_nil_stream env p c σ w o).
Qed.

(** What [NewUpload] stores on accepted options: an empty name becomes
    the string form of the current time and a negative timestamp becomes
    the current time in seconds; a name that is not empty and a timestamp
    that is zero or positive are kept. *)
Theorem NewUpload_fills :
  σ !! p = Some o ->
  Stream o <> None -> (0 < FileSize o)%Z ->
  exists out o',
    run env (NewUpload p c) σ w [] = Some out
    /\ result out = (Some (mkUpload p c "" ""), None)
    /\ heap out !! p = Some o'
    /\ Name o'
       = (if String.eqb (Name o) "" then
            Time_String (fst (now_for_Name env σ w))
          else Name o)
    /\ Timestamp o'
       = (if (Timestamp o <? 0)%Z then
            Time_Unix (fst (now_for_Timestamp env p σ w o))
          else Timestamp o).
Proof.
  intros Hp Hs Hz. do 2 eexists.
  split; [exact (NewUpload_accepts env p c σ w o Hp Hs Hz)|].
  cbn [result heap]. split; [reflexivity|].
  split; [apply lookup_insert_eq|].
  unfold filled, named.
  split; destruct (Timestamp o <? 0)%Z, (Name o =? "")%string; reflexivity.
Qed.


End NewUploadSpec.

(** ** The theorems at sample inputs *)

Lemma Upload_nil_error_witness :
  heap0 !! 1%positive = Some options0
  /\ exists out,
       run (scripted happy) (Upload_Upload upload0) heap0 0%nat [] = Some out
       /\ (snd (result out) = None
           <-> full_success (scripted happy) upload0 heap0 0%nat options0)
       /\ (full_success (scripted happy) upload0 heap0 0%nat options0 ->
           exists id,
             getImageIDFromURL
               (fst (fst (answer_enablePhoto (scripted happy) upload0 heap0 0%nat)))
             = Some (id, None)
             /\ fst (fst (answer_enablePhoto (scripted happy) upload0 heap0 0%nat))
                = "https://lh3.googleusercontent.com/" +:+ id
             /\ fst (result out)
                = mkUploadResult true id
                    (fst (fst (answer_enablePhoto (scripted happy) upload0 heap0 0%nat)))
                    (if String.eqb (AlbumName options0) "" then ""
                     else fst (fst (answer_createAlbum (scripted happy) upload0
                                      heap0 0%nat options0)))).
Proof.
  assert (H : heap0 !! 1%positive = Some options0) by (vm_compute; reflexivity).
  split; [exact H|].
  exact (Upload_nil_error (scripted happy) upload0 heap0 0%nat options0 H).
Defined.

Lemma Upload_enablePhoto_failures_witness :
  (exists out msg,
     run (scripted no_enable) (Upload_Upload upload0) heap0 0%nat [] = Some out
     /\ result out = (mkUploadResult true "" "" "", Some "connection reset")
     /\ trace out
        = trace_to_enablePhoto (scripted no_enable) upload0 heap0 0%nat
          ++ [log_Println msg]
     /\ is_warning (log_Println (CookieCredentials:=unit) msg) = true)
  /\ (exists out msg,
        run (scripted bad_url) (Upload_Upload upload0) heap0 0%nat [] = Some out
        /\ result out
           = (mkUploadResult true ""
                (fst (fst (answer_enablePhoto (scripted bad_url) upload0 heap0 0%nat)))
                "", fmt_Errorf "url doesn't contain the image id")
        /\ trace out
           = trace_to_enablePhoto (scripted bad_url) upload0 heap0 0%nat
             ++ [log_Println msg]
        /\ is_warning (log_Println (CookieCredentials:=unit) msg) = true).
Proof.
  split.
  - exact (proj1 (Upload_enablePhoto_failures (scripted no_enable) upload0
                    heap0 0%nat eq_refl eq_refl)
             "connection reset" eq_refl).
  - refine (proj2 (Upload_enablePhoto_failures (scripted bad_url) upload0
                     heap0 0%nat eq_refl eq_refl)
              eq_refl _).
    vm_compute. reflexivity.
Defined.

Lemma Upload_aborts_witness :
  fst (answer_requestUploadURL (scripted no_url) upload0 heap0 0%nat) <> None
  /\ exists out,
       run (scripted no_url) (Upload_Upload upload0) heap0 0%nat [] = Some out
       /\ fst (result out) = mkUploadResult false "" "" ""
       /\ Uploaded (fst (result out)) = false
       /\ snd (result out) <> None
       /\ existsb later_step (trace out) = false.
Proof.
  assert (H : fst (answer_requestUploadURL (scripted no_url) upload0 heap0 0%nat)
              <> None) by (vm_compute; discriminate).
  split; [exact H|].
  exact (Upload_aborts (scripted no_url) upload0 heap0 0%nat (or_introl H)).
Defined.

Lemma Upload_createAlbum_witness :
  heap0 !! 2%positive = Some options_album
  /\ exists out,
       run (scripted happy) (Upload_Upload upload_album) heap0 0%nat []
       = Some out
       /\ In (createAlbum upload_album (AlbumName options_album)) (trace out)
       /\ (forall e,
             snd (fst (answer_createAlbum (scripted happy) upload_album heap0
                         0%nat options_album)) = Some e ->
             result out
             = (mkUploadResult true "AbC-123_xyz"
                  (fst (fst (answer_enablePhoto (scripted happy) upload_album
                               heap0 0%nat))) "", Some e))
       /\ (snd (fst (answer_createAlbum (scripted happy) upload_album heap0
                       0%nat options_album)) = None ->
           result out
           = (mkUploadResult true "AbC-123_xyz"
                (fst (fst (answer_enablePhoto (scripted happy) upload_album
                             heap0 0%nat)))
                (fst (fst (answer_createAlbum (scripted happy) upload_album
                             heap0 0%nat options_album))), None)).
Proof.
  assert (H : heap0 !! 2%positive = Some options_album)
    by (vm_compute; reflexivity).
  assert (Hid : getImageIDFromURL
                  (fst (fst (answer_enablePhoto (scripted happy) upload_album
                               heap0 0%nat)))
                = Some ("AbC-123_xyz", None)) by (vm_compute; reflexivity).
  assert (Hn : AlbumName options_album <> "") by (vm_compute; discriminate).
  split; [exact H|].
  exact (Upload_createAlbum (scripted happy) upload_album heap0 0%nat
           options_album "AbC-123_xyz" H eq_refl eq_refl eq_refl Hid Hn).
Defined.

Lemma NewUpload_validation_witness :
  heap0 !! 3%positive = Some options_nil_stream
  /\ Stream options_nil_stream = None
  /\ exists e,
       run (scripted happy) (NewUpload 3%positive tt) heap0 0%nat []
       = Some (mkOutcome (None, Some e) heap0 0%nat []).
Proof.
  assert (H : heap0 !! 3%positive = Some options_nil_stream)
    by (vm_compute; reflexivity).
  split; [exact H|]. split; [reflexivity|].
  exact (NewUpload_validation (scripted happy) 3%positive tt heap0 0%nat
           options_nil_stream H (or_introl eq_refl)).
Defined.

(** C6: on options whose name and timestamp are both left unset, the
    empty name is filled but the timestamp stays zero although the clock
    reads 1700000000: the guard [options.Timestamp < 0] under "Fill
    missing optional fields" misses the zero value of an unset
    timestamp. *)
Lemma NewUpload_keeps_missing_Timestamp :
  heap0 !! 1%positive = Some options0
  /\ Timestamp options0 = 0%Z
  /\ Time_Unix (on_time_Now happy) = 1700000000%Z
  /\ exists out,
       run (scripted happy) (NewUpload 1%positive tt) heap0 0%nat [] = Some out
       /\ result out = (Some upload0, None)
       /\ Name <$> heap out !! 1%positive
          = Some (Time_String (on_time_Now happy))
       /\ Timestamp <$> heap out !! 1%positive = Some 0%Z.
Proof.
  split; [vm_compute; reflexivity|]. split; [reflexivity|].
  split; [reflexivity|].
  eexists. split; [vm_compute; reflexivity|].
  split; [reflexivity|]. split; vm_compute; reflexivity.
Qed.

Lemma NewUpload_fills_witness :
  heap0 !! 4%positive = Some options_negative
  /\ exists out o',
       run (scripted happy) (NewUpload 4%positive tt) heap0 0%nat [] = Some out
       /\ result out = (Some (mkUpload 4%positive tt "" ""), None)
       /\ heap out !! 4%positive = Some o'
       /\ Name o'
          = (if String.eqb (Name options_negative) "" then
               Time_String (fst (now_for_Name (scripted happy) heap0 0%nat))
             else Name options_negative)
       /\ Timestamp o'
          = (if (Timestamp options_negative <? 0)%Z then
               Time_Unix (fst (now_for_Timestamp (scripted happy) 4%positive
                                 heap0 0%nat options_negative))
             else Timestamp options_negative).
Proof.
  assert (H : heap0 !! 4%positive = Some options_negative)
    by (vm_compute; reflexivity).
  assert (Hs : Stream options_negative <> None) by (vm_compute; discriminate).
  assert (Hz : (0 < FileSize options_negative)%Z) by (vm_compute; reflexivity).
  split; [exact H|].
  exact (NewUpload_fills (scripted happy) 4%positive tt heap0 0%nat
           options_negative H Hs Hz).
Defined.



(** C8 as stated fails: the error of a failed [enablePhoto] and the error
    of a failed [createAlbum] are returned as they are, so the two
    failures cannot be told apart from the returned error. *)
Lemma Upload_forwards_underlying_error :
  snd (on_enablePhoto no_enable) = Some "connection reset"
  /\ snd (on_createAlbum no_album) = Some "connection reset"
  /\ (fun out => snd (result out))
       <$> run (scripted no_enable) (Upload_Upload upload0) heap0 0%nat []
     = Some (snd (on_enablePhoto no_enable))
  /\ (fun out => snd (result out))
       <$> run (scripted no_album) (Upload_Upload upload_album) heap0 0%nat []
     = Some (snd (on_createAlbum no_album)).
Proof. repeat split; vm_compute; reflexivity. Qed.

Lemma Upload_error_origin_witness :
  (fun out => (snd (result out), last (trace out)))
    <$> run (scripted no_url) (Upload_Upload upload0) heap0 0%nat []
  = Some (Some "can't get an upload url", Some (requestUploadURL upload0))
  /\ (fun out => (snd (result out), last (trace out)))
       <$> run (scripted no_upload) (Upload_Upload upload0) heap0 0%nat []
     = Some (Some "can't upload file to the url obtained from the previously request",
             Some (uploadFile upload0))
  /\ (fun out => (snd (result out), last (trace out)))
       <$> run (scripted no_enable) (Upload_Upload upload0) heap0 0%nat []
     = Some (Some "connection reset",
             Some (log_Println "[WARNING] The file has been uploaded, but the image url in the reply was not found. The image may not appear."))
  /\ (fun out => (snd (result out), last (trace out)))
       <$> run (scripted no_album) (Upload_Upload upload_album) heap0 0%nat []
     = Some (Some "connection reset",
             Some (log_Println "[WARNING] the file has been uploaded, but the album hasn't been created.")).
Proof.
  assert (H1 : fst (answer_requestUploadURL (scripted no_url) upload0 heap0 0%nat)
               <> None) by (vm_compute; discriminate).
  assert (H2 : snd (fst (answer_uploadFile (scripted no_upload) upload0 heap0 0%nat))
               <> None) by (vm_compute; discriminate).
  assert (Hσ : heap0 !! Options upload_album = Some options_album)
    by (vm_compute; reflexivity).
  assert (Hid : getImageIDFromURL
                  (fst (fst (answer_enablePhoto (scripted no_album) upload_album
                               heap0 0%nat)))
                = Some ("AbC-123_xyz", None)) by (vm_compute; reflexivity).
  assert (Hn : AlbumName options_album <> "") by (vm_compute; discriminate).
  split; [|split; [|split]].
  - exact (proj1 (Upload_error_origin (scripted no_url) upload0 heap0 0%nat) H1).
  - exact (proj1 (proj2 (Upload_error_origin (scripted no_upload) upload0
                           heap0 0%nat)) eq_refl H2).
  - exact (proj1 (proj2 (proj2 (Upload_error_origin (scripted no_enable)
                                  upload0 heap0 0%nat)))
             "connection reset" eq_refl eq_refl eq_refl).
  - exact (proj2 (proj2 (proj2 (Upload_error_origin (scripted no_album)
                                  upload_album heap0 0%nat)))
             options_album "AbC-123_xyz" "connection reset"
             Hσ eq_refl eq_refl eq_refl Hid Hn eq_refl).
Defined.

(** ** Further properties of extraction *)

(** X1: extraction succeeds with [id] exactly on the fixed prefix followed
    by [id], where [id] is not empty and made of letters, digits, [_] and
    [-] only. *)
Theorem getImageIDFromURL_iff URL id :
  getImageIDFromURL URL = Some (id, None)
  <-> URL = "https://lh3.googleusercontent.com/" +:+ id
      /\ id <> "" /\ all_chars id_char id = true.
Proof.
  split.
  - apply getImageIDFromURL_ok_inv.
  - intros (-> & Hne & Hall). now apply getImageIDFromURL_match.
Qed.

(** X2: extraction applied to [URLString] of a result gives back its
    [ImageID] when that is a well-formed identifier, and the error
    otherwise; in particular the URL of a result without identifier is
    rejected. *)
Theorem getImageIDFromURL_URLString ur :
  getImageIDFromURL (URLString ur)
  = if negb (String.eqb (ImageID ur) "") && all_chars id_char (ImageID ur)
    then Some (ImageID ur, None)
    else Some ("", Some "url doesn't contain the image id").
Proof.
  unfold URLString.
  destruct (String.eqb_spec (ImageID ur) "") as [He|Hne]; cbn [negb andb].
  - destruct (getImageIDFromURL_cases
                ("https://lh3.googleusercontent.com/" +:+ ImageID ur))
      as [[_ H]|(id & Hu & Hid & _ & _)]; [exact H|].
    apply (inj (String.append _)) in Hu. congruence.
  - destruct (all_chars id_char (ImageID ur)) eqn:Hall.
    + now apply getImageIDFromURL_match.
    + destruct (getImageIDFromURL_cases
                  ("https://lh3.googleusercontent.com/" +:+ ImageID ur))
        as [[_ H]|(id & Hu & _ & Hid & _)]; [exact H|].
      apply (inj (String.append _)) in Hu. congruence.
Qed.

(** ** Further properties of [Upload.Upload] *)

Section UploadMore.

Context {CookieCredentials W : Type}.
Variables (env : Env CookieCredentials W) (u : Upload CookieCredentials).
Variables (σ : gmap loc UploadOptions) (w : W).

Local Abbreviation a1 := (answer_requestUploadURL env u σ w).
Local Abbreviation a2 := (answer_uploadFile env u σ w).
Local Abbreviation a3 := (answer_enablePhoto env u σ w).
Local Abbreviation a4 := (answer_createAlbum env u σ w).

(* One goal per path of the code, with the outcome of that path in place
   of the existential. *)
Ltac upload_cases o :=
  destruct (fst a1) as [e1|] eqn:H1;
    [eexists; split; [eapply Upload_path_requestUploadURL; eassumption|] |
  destruct (snd (fst a2)) as [e2|] eqn:H2;
    [eexists; split; [eapply Upload_path_uploadFile; eassumption|] |
  destruct (snd (fst a3)) as [e3|] eqn:H3;
    [eexists; split; [eapply Upload_path_enablePhoto; eassumption|] |
  destruct (getImageIDFromURL_cases (fst (fst a3)))
    as [[Hno H4]|(id & Hurl & Hne & Hall & H4)];
    [eexists; split; [eapply Upload_path_getImageIDFromURL; eassumption|] |
  destruct (String.eqb_spec (AlbumName o) "") as [Hn|Hn];
    [eexists; split; [eapply Upload_path_done; eassumption|] |
  destruct (snd (fst (a4 o))) as [e5|] eqn:H5;
    [eexists; split; [eapply Upload_path_createAlbum_failed; eassumption|] |
     eexists; split; [eapply Upload_path_createAlbum; eassumption|]]]]]]].

(** X3: the result has [Uploaded = true] exactly when [requestUploadURL]
    and [uploadFile] both succeeded, whatever happens afterwards. *)
Theorem Upload_Uploaded_iff o :
  σ !! Options u = Some o ->
  exists out,
    run env (Upload_Upload u) σ w [] = Some out
    /\ (Uploaded (fst (result out)) = true
        <-> fst a1 = None /\ snd (fst a2) = None).
Proof.
  intros Hσ. upload_cases o; cbn [result fst snd Uploaded];
    (split; [intros ?; first [discriminate | split; reflexivity]
            | intros [? ?]; first [discriminate | reflexivity]]).
Qed.

(** X4: the fields of the result hang together: a result that is not
    uploaded is empty and comes with an error; an identifier comes with
    the URL it was extracted from, which is [URLString] of the result; an
    album identifier comes only with a nil error and an album name in the
    options; a nil error comes only with an uploaded result that has an
    identifier. *)
Theorem Upload_result_invariant o :
  σ !! Options u = Some o ->
  exists out,
    run env (Upload_Upload u) σ w [] = Some out
    /\ (Uploaded (fst (result out)) = false ->
        fst (result out) = mkUploadResult false "" "" ""
        /\ snd (result out) <> None)
    /\ (ImageID (fst (result out)) <> "" ->
        Uploaded (fst (result out)) = true
        /\ ImageUrl (fst (result out)) = URLString (fst (result out))
        /\ getImageIDFromURL (ImageUrl (fst (result out)))
           = Some (ImageID (fst (result out)), None))
    /\ (AlbumID (fst (result out)) <> "" ->
        snd (result out) = None /\ AlbumName o <> "")
    /\ (snd (result out) = None ->
        Uploaded (fst (result out)) = true
        /\ ImageID (fst (result out)) <> "").
Proof.
  intros Hσ.
  upload_cases o;
    cbn [result fst snd Uploaded ImageID ImageUrl AlbumID];
    unfold URLString; cbn [ImageID];
    repeat split; try congruence; try discriminate; auto.
Qed.

(** X5: the calls are made in the order of the code, each at most once:
    the trace is a non-empty prefix of [requestUploadURL], [uploadFile],
    [enablePhoto], [moveToAlbum] (with an album id), [createAlbum] (with
    an album name), followed by at most one line of the log. *)
Theorem Upload_call_order o :
  σ !! Options u = Some o ->
  exists out n l,
    run env (Upload_Upload u) σ w [] = Some out
    /\ trace out = firstn n (planned_calls env u σ w o) ++ l
    /\ (1 <= n)%nat
    /\ (l = [] \/ exists msg, l = [log_Println msg]).
Proof.
  intros Hσ. unfold planned_calls.
  destruct (fst a1) as [e1|] eqn:H1.
  { exists (mkOutcome
              (mkUploadResult false "" "" "",
               errors_New "can't get an upload url")
              σ (snd a1) [requestUploadURL u]), 1%nat, [].
    split; [eapply Upload_path_requestUploadURL; eassumption|].
    unfold trace_to_enablePhoto. cbn. repeat split; auto. }
  destruct (snd (fst a2)) as [e2|] eqn:H2.
  { do 2 eexists. exists [].
    split; [eapply Upload_path_uploadFile; eassumption|].
    split; [instantiate (1 := 2%nat); reflexivity|]. split; auto. }
  destruct (snd (fst a3)) as [e3|] eqn:H3.
  { do 3 eexists.
    split; [eapply Upload_path_enablePhoto; eassumption|].
    split; [instantiate (2 := 3%nat); reflexivity|]. split; eauto. }
  destruct (getImageIDFromURL_cases (fst (fst a3)))
    as [[Hno H4]|(id & Hurl & Hne & Hall & H4)].
  { do 3 eexists.
    split; [eapply Upload_path_getImageIDFromURL; eassumption|].
    split; [instantiate (2 := 3%nat); reflexivity|]. split; eauto. }
  destruct (String.eqb_spec (AlbumName o) "") as [Hn|Hn].
  { eexists.
    exists (length (trace_to_enablePhoto env u σ w ++ trace_move u o ++ [])), [].
    split; [eapply Upload_path_done; eassumption|].
    cbn [trace]. rewrite firstn_all, !app_nil_r. cbn. auto with arith. }
  destruct (snd (fst (a4 o))) as [e5|] eqn:H5.
  - eexists.
    exists (length (trace_to_enablePhoto env u σ w ++ trace_move u o
                    ++ [createAlbum u (AlbumName o)])).
    eexists.
    split; [eapply Upload_path_createAlbum_failed; eassumption|].
    cbn [trace]. rewrite firstn_all.
    split; [|split; [cbn; auto with arith | right; eauto]].
    now rewrite <- !app_assoc.
  - eexists.
    exists (length (trace_to_enablePhoto env u σ w ++ trace_move u o
                    ++ [createAlbum u (AlbumName o)])), [].
    split; [eapply Upload_path_createAlbum; eassumption|].
    cbn [trace]. rewrite firstn_all, app_nil_r.
    split; [reflexivity | cbn; auto with arith].
Qed.

(** X6: a line is written to the log exactly when the result is uploaded
    but comes with an error; a failure of step 1 or 2 and a success write
    nothing.  Every line written is at warning level. *)
Theorem Upload_logs_iff o :
  σ !! Options u = Some o ->
  exists out,
    run env (Upload_Upload u) σ w [] = Some out
    /\ (existsb is_log (trace out) = true
        <-> Uploaded (fst (result out)) = true /\ snd (result out) <> None)
    /\ (forall s, In s (trace out) -> is_log s = true -> is_warning s = true).
Proof.
  intros Hσ.
  upload_cases o; cbn [result trace fst snd Uploaded];
    unfold trace_to_enablePhoto, trace_move;
    destruct (AlbumId o =? "")%string; cbn;
    (split; [split; [intros ?; first [discriminate | split; congruence]
                    | intros [? ?]; first [discriminate | congruence]]
            | intros s Hs Hl;
              repeat (destruct Hs as [<-|Hs]; [first [discriminate Hl | reflexivity]|]);
              contradiction]).
Qed.

(** No album field, no album step. *)
Lemma Upload_without_album_fields o :
  σ !! Options u = Some o ->
  AlbumId o = "" -> AlbumName o = "" ->
  exists out,
    run env (Upload_Upload u) σ w [] = Some out
    /\ existsb is_album_step (trace out) = false
    /\ AlbumID (fst (result out)) = ""
    /\ heap out = σ.
Proof.
  intros Hσ Hi Hn'.
  upload_cases o; cbn [result trace heap fst snd AlbumID];
    unfold trace_to_enablePhoto, trace_move; rewrite ?Hi; cbn;
    try (repeat split; reflexivity); contradiction.
Qed.

(** X7: [moveToAlbum] is fire-and-forget: with an album id and no album
    name, once the identifier is extracted [moveToAlbum] is called with
    that album id as the last call, and even when it fails the result is
    [{true, id, url, ""}] with a nil error and nothing is logged. *)
Theorem Upload_moveToAlbum_ignored o id e :
  σ !! Options u = Some o ->
  fst a1 = None -> snd (fst a2) = None -> snd (fst a3) = None ->
  getImageIDFromURL (fst (fst a3)) = Some (id, None) ->
  AlbumId o <> "" -> AlbumName o = "" ->
  fst (env (moveToAlbum u (AlbumId o)) σ (snd a3)) = Some e ->
  exists out,
    run env (Upload_Upload u) σ w [] = Some out
    /\ result out = (mkUploadResult true id (fst (fst a3)) "", None)
    /\ last (trace out) = Some (moveToAlbum u (AlbumId o))
    /\ existsb is_log (trace out) = false.
Proof.
  intros Hσ H1 H2 H3 H4 Hi Hn _.
  eexists. split; [eapply Upload_path_done; eassumption|].
  cbn [result trace]. unfold trace_to_enablePhoto, trace_move.
  apply String.eqb_neq in Hi. rewrite Hi. cbn. auto.
Qed.

(** X8: the album steps are made only when asked for: [moveToAlbum] is
    called only with the album id of the options, which is then not
    empty, and [createAlbum] only with their album name, which is then
    not empty; without an album name the result has no album
    identifier. *)
Theorem Upload_album_steps_only_when_asked o :
  σ !! Options u = Some o ->
  exists out,
    run env (Upload_Upload u) σ w [] = Some out
    /\ (forall u' a, In (moveToAlbum u' a) (trace out) ->
          u' = u /\ a = AlbumId o /\ a <> "")
    /\ (forall u' n, In (createAlbum u' n) (trace out) ->
          u' = u /\ n = AlbumName o /\ n <> "")
    /\ (AlbumName o = "" -> AlbumID (fst (result out)) = "").
Proof.
  intros Hσ.
  upload_cases o; cbn [result trace fst snd AlbumID];
    unfold trace_to_enablePhoto, trace_move;
    destruct (String.eqb_spec (AlbumId o) ""); cbn;
    (split; [|split]);
    try (intros u' x Hin;
         repeat (destruct Hin as [Hin|Hin];
                 [first [discriminate Hin
                        | injection Hin as <- <-; auto] |]);
         contradiction);
    first [reflexivity | contradiction | intros; reflexivity].
Qed.

End UploadMore.

(** ** Further properties of [NewUpload] *)

Section NewUploadMore.

Context {CookieCredentials W : Type}.
Variables (env : Env CookieCredentials W).
Variables (p : loc) (c : CookieCredentials).
Variables (σ : gmap loc UploadOptions) (w : W) (o : UploadOptions).

(** X9: [NewUpload] accepts the options exactly when the stream is not nil
    and the size is positive, and then returns an [Upload] holding the
    pointer and the credentials it was given; the nil stream is reported
    first, whatever the size, and a size that is not positive next. *)
Theorem NewUpload_accepts_iff :
  σ !! p = Some o ->
  exists out,
    run env (NewUpload p c) σ w [] = Some out
    /\ (snd (result out) = None <-> Stream o <> None /\ (0 < FileSize o)%Z)
    /\ (snd (result out) = None ->
        fst (result out) = Some (mkUpload p c "" ""))
    /\ (Stream o = None ->
        result out
        = (None, errors_New "the stream of the UploadOptions is nil"))
    /\ (Stream o <> None -> (FileSize o <= 0)%Z ->
        result out
        = (None, errors_New "the fileSize of the UploadOptions is <= 0")).
Proof.
  intros Hp.
  destruct (Stream o) as [r|] eqn:Hs.
  - destruct (Z.leb_spec (FileSize o) 0) as [Hz|Hz].
    + eexists. split;
        [apply (NewUpload_bad_size env p c σ w o);
         [assumption | congruence | assumption]|].
      cbn [result fst snd]. repeat split; try discriminate; try lia.
    + eexists. split;
        [apply (NewUpload_accepts env p c σ w o);
         [assumption | congruence | assumption]|].
      cbn [result fst snd]. repeat split; try discriminate; try lia.
  - eexists. split; [now apply (NewUpload_nil_stream env p c σ w o)|].
    cbn [result fst snd]. repeat split; try discriminate; try congruence;
      try (intros [? _]; congruence).
Qed.

(** X10: [NewUpload] calls nothing but the clock, exactly once for each
    field it fills: once when it accepts options with an empty name,
    once more when it accepts options with a negative timestamp, and not
    at all when it rejects the options. *)
Theorem NewUpload_calls :
  σ !! p = Some o ->
  exists out,
    run env (NewUpload p c) σ w [] = Some out
    /\ forallb is_clock (trace out) = true
    /\ (snd (result out) <> None -> trace out = [])
    /\ (snd (result out) = None ->
        length (trace out)
        = ((if String.eqb (Name o) "" then 1 else 0)
           + (if (Timestamp o <? 0)%Z then 1 else 0))%nat)
    /\ (length (trace out) <= 2)%nat
    /\ (Name o <> "" -> (0 <= Timestamp o)%Z -> trace out = []).
Proof.
  intros Hp.
  destruct (Stream o) as [r|] eqn:Hs.
  - destruct (Z.leb_spec (FileSize o) 0) as [Hz|Hz].
    + eexists. split;
        [apply (NewUpload_bad_size env p c σ w o);
         [assumption | congruence | assumption]|].
      cbn. repeat split; auto. discriminate.
    + eexists. split;
        [apply (NewUpload_accepts env p c σ w o);
         [assumption | congruence | assumption]|].
      cbn [result trace snd]. unfold trace_filled.
      destruct (String.eqb_spec (Name o) ""), (Z.ltb_spec (Timestamp o) 0);
        cbn; repeat split; auto; try congruence; try lia.
  - eexists. split; [now apply (NewUpload_nil_stream env p c σ w o)|].
    cbn. repeat split; auto. discriminate.
Qed.

(** X11: calling [NewUpload] again on options it has accepted changes
    nothing and reads no clock, provided the clock, where it was read,
    gave a string that is not empty and a time that is not negative; the
    two [Upload]s share the same options. *)
Theorem NewUpload_twice c' :
  σ !! p = Some o ->
  Stream o <> None -> (0 < FileSize o)%Z ->
  (Name o = "" -> Time_String (fst (now_for_Name env σ w)) <> "") ->
  ((Timestamp o < 0)%Z ->
   (0 <= Time_Unix (fst (now_for_Timestamp env p σ w o)))%Z) ->
  exists out,
    run env (NewUpload p c) σ w [] = Some out
    /\ result out = (Some (mkUpload p c "" ""), None)
    /\ run env (NewUpload p c') (heap out) (world out) []
       = Some (mkOutcome (Some (mkUpload p c' "" ""), None)
                 (heap out) (world out) []).
Proof.
  intros Hp Hs Hz Hstr Hunix.
  eexists. split; [exact (NewUpload_accepts env p c σ w o Hp Hs Hz)|].
  cbn [result heap world]. split; [reflexivity|].
  set (o' := filled env p σ w o).
  assert (Hp' : <[p:=o']> σ !! p = Some o') by apply lookup_insert_eq.
  assert (Hs' : Stream o' <> None).
  { unfold o', filled, named.
    now destruct (Timestamp o <? 0)%Z, (Name o =? "")%string. }
  assert (Hz' : (0 < FileSize o')%Z).
  { unfold o', filled, named.
    now destruct (Timestamp o <? 0)%Z, (Name o =? "")%string. }
  assert (Hn' : (Name o' =? "")%string = false).
  { apply String.eqb_neq. unfold o', filled, named.
    destruct (Timestamp o <? 0)%Z, (String.eqb_spec (Name o) "");
      cbn; auto. }
  assert (Ht' : (Timestamp o' <? 0)%Z = false).
  { apply Z.ltb_ge. unfold o', filled, named.
    destruct (Z.ltb_spec (Timestamp o) 0), (Name o =? "")%string;
      cbn; auto. }
  rewrite (NewUpload_accepts env p c' _ _ o' Hp' Hs' Hz').
  unfold filled, named, world_filled, world_named, trace_filled.
  rewrite Hn', Ht'. cbn [app].
  now rewrite insert_insert_eq.
Qed.

End NewUploadMore.

(** ** Properties of [NewUploadOptionsFromFile] *)

Lemma path_Base_nonempty s : path_Base s <> "".
Proof.
  unfold path_Base. destruct (s =? "")%string; [discriminate|].
  now destruct (String.eqb_spec (after_last_slash (strip_trailing_slashes s)) "").
Qed.

Lemma wrap64_small z : (- 2 ^ 63 <= z < 2 ^ 63)%Z -> wrap64 z = z.
Proof. intros H. unfold wrap64. rewrite Z.mod_small; lia. Qed.

Lemma alloc_fresh (o : UploadOptions) (σ : gmap loc UploadOptions) :
  σ !! fst (alloc o σ) = None /\ snd (alloc o σ) = <[fst (alloc o σ):=o]> σ.
Proof.
  unfold alloc. cbn. split; [|reflexivity].
  apply not_elem_of_dom, is_fresh.
Qed.

Section FromFile.

Variables (file : os_File) (σ : gmap loc UploadOptions).

(** The options built from [file] when [Stat] answers [info]. *)
Local Abbreviation options_of info :=
  (mkUploadOptions (Some (file_reader file)) (info_Size info)
     (path_Base (file_Name file))
     (wrap64 (Time_Unix (info_ModTime info) * 1000)) "" "").

Lemma NewUploadOptionsFromFile_ok info :
  file_Stat file = (Some info, None) ->
  exists p,
    σ !! p = None
    /\ NewUploadOptionsFromFile file σ
       = Some ((Some p, None), <[p:=options_of info]> σ).
Proof.
  intros HS. unfold NewUploadOptionsFromFile. rewrite HS.
  destruct (alloc_fresh (options_of info) σ) as [Hf Hh].
  exists (fst (alloc (options_of info) σ)). split; [exact Hf|].
  destruct (alloc (options_of info) σ) as [q σ'] eqn:Ha.
  cbn [fst snd] in *. now rewrite Hh.
Qed.

(** X12: when [Stat] fails, [NewUploadOptionsFromFile] returns no options
    and an error whose message holds the message of [Stat] between
    parentheses, and creates nothing; when [Stat] succeeds it returns a
    pointer that was not in use to options holding the file as stream, its
    size and no album field, and leaves every other [UploadOptions] as it
    was. *)
Theorem NewUploadOptionsFromFile_spec :
  (forall info e,
     file_Stat file = (info, Some e) ->
     NewUploadOptionsFromFile file σ
     = Some ((None, Some ("can't read file information (" +:+ e +:+ ")")), σ))
  /\ (forall info,
        file_Stat file = (Some info, None) ->
        exists p σ' o,
          NewUploadOptionsFromFile file σ = Some ((Some p, None), σ')
          /\ σ !! p = None
          /\ σ' !! p = Some o
          /\ Stream o = Some (file_reader file)
          /\ FileSize o = info_Size info
          /\ AlbumId o = "" /\ AlbumName o = ""
          /\ (forall q, q <> p -> σ' !! q = σ !! q)).
Proof.
  split.
  - intros info e HS. unfold NewUploadOptionsFromFile. now rewrite HS.
  - intros info HS.
    destruct (NewUploadOptionsFromFile_ok info HS) as (p & Hf & ->).
    do 3 eexists. split; [reflexivity|]. split; [exact Hf|].
    split; [apply lookup_insert_eq|].
    cbn. repeat split.
    intros q Hq. now apply lookup_insert_ne.
Qed.

End FromFile.

Section FromFileToUpload.

Context {CookieCredentials W : Type}.
Variables (env : Env CookieCredentials W) (c : CookieCredentials).
Variables (file : os_File) (info : FileInfo).
Variables (σ : gmap loc UploadOptions) (w : W).
Hypothesis HStat : file_Stat file = (Some info, None).

Local Abbreviation options_of :=
  (mkUploadOptions (Some (file_reader file)) (info_Size info)
     (path_Base (file_Name file))
     (wrap64 (Time_Unix (info_ModTime info) * 1000)) "" "").

(** X13: the options built from a file are accepted by [NewUpload]
    exactly when the file is not empty, and an empty file is rejected for
    its size, never for its stream; once accepted the options still hold
    the base name of the file, which [NewUpload] never replaces, the file
    as stream and its size. *)
Theorem NewUpload_from_file :
  exists p σ1 out,
    NewUploadOptionsFromFile file σ = Some ((Some p, None), σ1)
    /\ run env (NewUpload p c) σ1 w [] = Some out
    /\ (snd (result out) = None <-> (0 < info_Size info)%Z)
    /\ ((info_Size info <= 0)%Z ->
        result out
        = (None, errors_New "the fileSize of the UploadOptions is <= 0"))
    /\ ((0 < info_Size info)%Z ->
        fst (result out) = Some (mkUpload p c "" "")
        /\ exists o',
             heap out !! p = Some o'
             /\ Name o' = path_Base (file_Name file)
             /\ Stream o' = Some (file_reader file)
             /\ FileSize o' = info_Size info).
Proof.
  destruct (NewUploadOptionsFromFile_ok file σ info HStat) as (p & Hf & HN).
  assert (Hp : <[p:=options_of]> σ !! p = Some options_of)
    by apply lookup_insert_eq.
  exists p, (<[p:=options_of]> σ).
  destruct (Z.leb_spec (info_Size info) 0) as [Hz|Hz].
  - eexists. split; [exact HN|]. split.
    + apply (NewUpload_bad_size env p c _ w options_of Hp);
        [discriminate | exact Hz].
    + cbn [result fst snd]. repeat split; try discriminate; try lia.
  - eexists. split; [exact HN|]. split.
    + apply (NewUpload_accepts env p c _ w options_of Hp);
        [discriminate | exact Hz].
    + cbn [result heap fst snd]. repeat split; try lia.
      eexists. split; [apply lookup_insert_eq|].
      unfold filled, named. cbn [Name Timestamp].
      destruct (String.eqb_spec (path_Base (file_Name file)) "") as [He|_];
        [now apply path_Base_nonempty in He|].
      now destruct (_ <? 0)%Z.
Qed.

(** X14: the timestamp of options built from a file is the modification
    time in milliseconds (when that fits an int64).  [NewUpload] keeps
    it when the modification time is not before 1970 and reads no
    clock; for an earlier one it stores the current time, in seconds. *)
Theorem NewUpload_from_file_Timestamp :
  (0 < info_Size info)%Z ->
  (- 2 ^ 63 <= Time_Unix (info_ModTime info) * 1000 < 2 ^ 63)%Z ->
  exists p σ1 out o',
    NewUploadOptionsFromFile file σ = Some ((Some p, None), σ1)
    /\ σ1 !! p = Some options_of
    /\ Timestamp options_of = (Time_Unix (info_ModTime info) * 1000)%Z
    /\ run env (NewUpload p c) σ1 w [] = Some out
    /\ heap out !! p = Some o'
    /\ ((0 <= Time_Unix (info_ModTime info))%Z ->
        Timestamp o' = (Time_Unix (info_ModTime info) * 1000)%Z
        /\ trace out = [])
    /\ ((Time_Unix (info_ModTime info) < 0)%Z ->
        Timestamp o' = Time_Unix (fst (env time_Now σ1 w))
        /\ trace out = [time_Now]).
Proof.
  intros Hz Hfit.
  destruct (NewUploadOptionsFromFile_ok file σ info HStat) as (p & Hf & HN).
  assert (Hp : <[p:=options_of]> σ !! p = Some options_of)
    by apply lookup_insert_eq.
  exists p, (<[p:=options_of]> σ). do 2 eexists.
  split; [exact HN|]. split; [exact Hp|].
  split; [cbn [Timestamp]; now apply wrap64_small|].
  split; [apply (NewUpload_accepts env p c _ w options_of Hp);
          [discriminate | exact Hz]|].
  cbn [heap trace]. split; [apply lookup_insert_eq|].
  unfold filled, named, trace_filled, now_for_Timestamp, heap_named,
    world_named.
  cbn [Name Timestamp]. rewrite (wrap64_small _ Hfit).
  destruct (String.eqb_spec (path_Base (file_Name file)) "") as [He|_];
    [now apply path_Base_nonempty in He|].
  destruct (Z.ltb_spec (Time_Unix (info_ModTime info) * 1000) 0);
    cbn; split; intros; first [lia | split; reflexivity].
Qed.

(** X15: uploading options built from a file and accepted by [NewUpload]
    never moves the photo into an album nor creates one, the result has
    no album identifier, and the options are left as [NewUpload] made
    them. *)
Theorem Upload_from_file_no_album w' :
  (0 < info_Size info)%Z ->
  exists p σ1 out1 u,
    NewUploadOptionsFromFile file σ = Some ((Some p, None), σ1)
    /\ run env (NewUpload p c) σ1 w [] = Some out1
    /\ result out1 = (Some u, None)
    /\ exists out2,
         run env (Upload_Upload u) (heap out1) w' [] = Some out2
         /\ existsb is_album_step (trace out2) = false
         /\ AlbumID (fst (result out2)) = ""
         /\ heap out2 = heap out1.
Proof.
  intros Hz.
  destruct (NewUploadOptionsFromFile_ok file σ info HStat) as (p & Hf & HN).
  assert (Hp : <[p:=options_of]> σ !! p = Some options_of)
    by apply lookup_insert_eq.
  exists p, (<[p:=options_of]> σ). do 2 eexists.
  split; [exact HN|].
  split; [apply (NewUpload_accepts env p c _ w options_of Hp);
          [discriminate | exact Hz]|].
  cbn [result heap]. split; [reflexivity|].
  apply (Upload_without_album_fields env (mkUpload p c "" "") _ w'
           (filled env p (<[p:=options_of]> σ) w options_of)).
  - apply lookup_insert_eq.
  - unfold filled, named. now destruct (_ <? 0)%Z, (_ =? "")%string.
  - unfold filled, named. now destruct (_ <? 0)%Z, (_ =? "")%string.
Qed.

End FromFileToUpload.

(** ** The further properties at sample inputs *)

(* Closes a hypothesis at a sample input by evaluation. *)
Ltac sample :=
  first [ vm_compute; reflexivity
        | vm_compute; discriminate
        | intros _; vm_compute; discriminate
        | split; vm_compute; first [reflexivity | discriminate] ].

Lemma Upload_Uploaded_iff_witness :
  (heap0 !! Options upload0 = Some options0)
  /\ (exists out,
    run (scripted happy) (Upload_Upload upload0) heap0 0%nat [] = Some out
    /\ (Uploaded (fst (result out)) = true
        <-> fst (answer_requestUploadURL (scripted happy) upload0 heap0 0%nat) = None /\ snd (fst (answer_uploadFile (scripted happy) upload0 heap0 0%nat)) = None)).
Proof.
  assert (H0 : heap0 !! Options upload0 = Some options0)
    by sample.
  split; [exact H0|].
  exact (Upload_Uploaded_iff (scripted happy) upload0 heap0 0%nat options0 H0).
Defined.

Lemma Upload_result_invariant_witness :
  (heap0 !! Options upload_album = Some options_album)
  /\ (exists out,
    run (scripted happy) (Upload_Upload upload_album) heap0 0%nat [] = Some out
    /\ (Uploaded (fst (result out)) = false ->
        fst (result out) = mkUploadResult false "" "" ""
        /\ snd (result out) <> None)
    /\ (ImageID (fst (result out)) <> "" ->
        Uploaded (fst (result out)) = true
        /\ ImageUrl (fst (result out)) = URLString (fst (result out))
        /\ getImageIDFromURL (ImageUrl (fst (result out)))
           = Some (ImageID (fst (result out)), None))
    /\ (AlbumID (fst (result out)) <> "" ->
        snd (result out) = None /\ AlbumName options_album <> "")
    /\ (snd (result out) = None ->
        Uploaded (fst (result out)) = true
        /\ ImageID (fst (result out)) <> "")).
Proof.
  assert (H0 : heap0 !! Options upload_album = Some options_album)
    by sample.
  split; [exact H0|].
  exact (Upload_result_invariant (scripted happy) upload_album heap0 0%nat options_album H0).
Defined.

Lemma Upload_call_order_witness :
  (heap0 !! Options upload_album = Some options_album)
  /\ (exists out n l,
    run (scripted happy) (Upload_Upload upload_album) heap0 0%nat [] = Some out
    /\ trace out = firstn n (planned_calls (scripted happy) upload_album heap0 0%nat options_album) ++ l
    /\ (1 <= n)%nat
    /\ (l = [] \/ exists msg, l = [log_Println msg])).
Proof.
  assert (H0 : heap0 !! Options upload_album = Some options_album)
    by sample.
  split; [exact H0|].
  exact (Upload_call_order (scripted happy) upload_album heap0 0%nat options_album H0).
Defined.

Lemma Upload_logs_iff_witness :
  (heap0 !! Options upload0 = Some options0)
  /\ (exists out,
    run (scripted no_enable) (Upload_Upload upload0) heap0 0%nat [] = Some out
    /\ (existsb is_log (trace out) = true
        <-> Uploaded (fst (result out)) = true /\ snd (result out) <> None)
    /\ (forall s, In s (trace out) -> is_log s = true -> is_warning s = true)).
Proof.
  assert (H0 : heap0 !! Options upload0 = Some options0)
    by sample.
  split; [exact H0|].
  exact (Upload_logs_iff (scripted no_enable) upload0 heap0 0%nat options0 H0).
Defined.

Lemma Upload_moveToAlbum_ignored_witness :
  (heap0 !! Options upload_move = Some options_negative)
  /\   (fst (answer_requestUploadURL (scripted no_move) upload_move heap0 0%nat) = None)
  /\   (snd (fst (answer_uploadFile (scripted no_move) upload_move heap0 0%nat)) = None)
  /\   (snd (fst (answer_enablePhoto (scripted no_move) upload_move heap0 0%nat)) = None)
  /\   (getImageIDFromURL (fst (fst (answer_enablePhoto (scripted no_move) upload_move heap0 0%nat))) = Some ("AbC-123_xyz", None))
  /\   (AlbumId options_negative <> "")
  /\   (AlbumName options_negative = "")
  /\   (fst ((scripted no_move) (moveToAlbum upload_move (AlbumId options_negative)) heap0 (snd (answer_enablePhoto (scripted no_move) upload_move heap0 0%nat))) = Some "404 Not Found")
  /\ (exists out,
    run (scripted no_move) (Upload_Upload upload_move) heap0 0%nat [] = Some out
    /\ result out = (mkUploadResult true "AbC-123_xyz" (fst (fst (answer_enablePhoto (scripted no_move) upload_move heap0 0%nat))) "", None)
    /\ last (trace out) = Some (moveToAlbum upload_move (AlbumId options_negative))
    /\ existsb is_log (trace out) = false).
Proof.
  assert (H0 : heap0 !! Options upload_move = Some options_negative)
    by sample.
  assert (H1 : fst (answer_requestUploadURL (scripted no_move) upload_move heap0 0%nat) = None)
    by sample.
  assert (H2 : snd (fst (answer_uploadFile (scripted no_move) upload_move heap0 0%nat)) = None)
    by sample.
  assert (H3 : snd (fst (answer_enablePhoto (scripted no_move) upload_move heap0 0%nat)) = None)
    by sample.
  assert (H4 : getImageIDFromURL (fst (fst (answer_enablePhoto (scripted no_move) upload_move heap0 0%nat))) = Some ("AbC-123_xyz", None))
    by sample.
  assert (H5 : AlbumId options_negative <> "")
    by sample.
  assert (H6 : AlbumName options_negative = "")
    by sample.
  assert (H7 : fst ((scripted no_move) (moveToAlbum upload_move (AlbumId options_negative)) heap0 (snd (answer_enablePhoto (scripted no_move) upload_move heap0 0%nat))) = Some "404 Not Found")
    by sample.
  split; [exact H0|].
  split; [exact H1|].
  split; [exact H2|].
  split; [exact H3|].
  split; [exact H4|].
  split; [exact H5|].
  split; [exact H6|].
  split; [exact H7|].
  exact (Upload_moveToAlbum_ignored (scripted no_move) upload_move heap0 0%nat options_negative "AbC-123_xyz" "404 Not Found" H0 H1 H2 H3 H4 H5 H6 H7).
Defined.

Lemma Upload_album_steps_only_when_asked_witness :
  (heap0 !! Options upload_album = Some options_album)
  /\ (exists out,
    run (scripted happy) (Upload_Upload upload_album) heap0 0%nat [] = Some out
    /\ (forall u' a, In (moveToAlbum u' a) (trace out) ->
          u' = upload_album /\ a = AlbumId options_album /\ a <> "")
    /\ (forall u' n, In (createAlbum u' n) (trace out) ->
          u' = upload_album /\ n = AlbumName options_album /\ n <> "")
    /\ (AlbumName options_album = "" -> AlbumID (fst (result out)) = "")).
Proof.
  assert (H0 : heap0 !! Options upload_album = Some options_album)
    by sample.
  split; [exact H0|].
  exact (Upload_album_steps_only_when_asked (scripted happy) upload_album heap0 0%nat options_album H0).
Defined.

Lemma NewUpload_accepts_iff_witness :
  (heap0 !! 3%positive = Some options_nil_stream)
  /\ (exists out,
    run (scripted happy) (NewUpload 3%positive tt) heap0 0%nat [] = Some out
    /\ (snd (result out) = None <-> Stream options_nil_stream <> None /\ (0 < FileSize options_nil_stream)%Z)
    /\ (snd (result out) = None ->
        fst (result out) = Some (mkUpload 3%positive tt "" ""))
    /\ (Stream options_nil_stream = None ->
        result out
        = (None, errors_New "the stream of the UploadOptions is nil"))
    /\ (Stream options_nil_stream <> None -> (FileSize options_nil_stream <= 0)%Z ->
        result out
        = (None, errors_New "the fileSize of the UploadOptions is <= 0"))).
Proof.
  assert (H0 : heap0 !! 3%positive = Some options_nil_stream)
    by sample.
  split; [exact H0|].
  exact (NewUpload_accepts_iff (scripted happy) 3%positive tt heap0 0%nat options_nil_stream H0).
Defined.

Lemma NewUpload_calls_witness :
  (heap0 !! 4%positive = Some options_negative)
  /\ (exists out,
    run (scripted happy) (NewUpload 4%positive tt) heap0 0%nat [] = Some out
    /\ forallb is_clock (trace out) = true
    /\ (snd (result out) <> None -> trace out = [])
    /\ (snd (result out) = None ->
        length (trace out)
        = ((if String.eqb (Name options_negative) "" then 1 else 0)
           + (if (Timestamp options_negative <? 0)%Z then 1 else 0))%nat)
    /\ (length (trace out) <= 2)%nat
    /\ (Name options_negative <> "" -> (0 <= Timestamp options_negative)%Z -> trace out = [])).
Proof.
  assert (H0 : heap0 !! 4%positive = Some options_negative)
    by sample.
  split; [exact H0|].
  exact (NewUpload_calls (scripted happy) 4%positive tt heap0 0%nat options_negative H0).
Defined.

Lemma NewUpload_twice_witness :
  (heap0 !! 1%positive = Some options0)
  /\   (Stream options0 <> None)
  /\   ((0 < FileSize options0)%Z)
  /\   ((Name options0 = "" -> Time_String (fst (now_for_Name (scripted happy) heap0 0%nat)) <> ""))
  /\   (((Timestamp options0 < 0)%Z ->
   (0 <= Time_Unix (fst (now_for_Timestamp (scripted happy) 1%positive heap0 0%nat options0)))%Z))
  /\ (exists out,
    run (scripted happy) (NewUpload 1%positive tt) heap0 0%nat [] = Some out
    /\ result out = (Some (mkUpload 1%positive tt "" ""), None)
    /\ run (scripted happy) (NewUpload 1%positive tt) (heap out) (world out) []
       = Some (mkOutcome (Some (mkUpload 1%positive tt "" ""), None)
                 (heap out) (world out) [])).
Proof.
  assert (H0 : heap0 !! 1%positive = Some options0)
    by sample.
  assert (H1 : Stream options0 <> None)
    by sample.
  assert (H2 : (0 < FileSize options0)%Z)
    by sample.
  assert (H3 : (Name options0 = "" -> Time_String (fst (now_for_Name (scripted happy) heap0 0%nat)) <> ""))
    by sample.
  assert (H4 : ((Timestamp options0 < 0)%Z ->
   (0 <= Time_Unix (fst (now_for_Timestamp (scripted happy) 1%positive heap0 0%nat options0)))%Z))
    by sample.
  split; [exact H0|].
  split; [exact H1|].
  split; [exact H2|].
  split; [exact H3|].
  split; [exact H4|].
  exact (NewUpload_twice (scripted happy) 1%positive tt heap0 0%nat options0 tt H0 H1 H2 H3 H4).
Defined.

Lemma NewUpload_from_file_witness :
  (file_Stat file0 = (Some (mkFileInfo 4096 (mkTime 1600000000 "2020-09-13 12:26:40 +0000 UTC")), None))
  /\ (exists p σ1 out,
    NewUploadOptionsFromFile file0 heap0 = Some ((Some p, None), σ1)
    /\ run (scripted happy) (NewUpload p tt) σ1 0%nat [] = Some out
    /\ (snd (result out) = None <-> (0 < info_Size (mkFileInfo 4096 (mkTime 1600000000 "2020-09-13 12:26:40 +0000 UTC")))%Z)
    /\ ((info_Size (mkFileInfo 4096 (mkTime 1600000000 "2020-09-13 12:26:40 +0000 UTC")) <= 0)%Z ->
        result out
        = (None, errors_New "the fileSize of the UploadOptions is <= 0"))
    /\ ((0 < info_Size (mkFileInfo 4096 (mkTime 1600000000 "2020-09-13 12:26:40 +0000 UTC")))%Z ->
        fst (result out) = Some (mkUpload p tt "" "")
        /\ exists o',
             heap out !! p = Some o'
             /\ Name o' = path_Base (file_Name file0)
             /\ Stream o' = Some (file_reader file0)
             /\ FileSize o' = info_Size (mkFileInfo 4096 (mkTime 1600000000 "2020-09-13 12:26:40 +0000 UTC")))).
Proof.
  assert (H0 : file_Stat file0 = (Some (mkFileInfo 4096 (mkTime 1600000000 "2020-09-13 12:26:40 +0000 UTC")), None))
    by sample.
  split; [exact H0|].
  exact (NewUpload_from_file (scripted happy) tt file0 (mkFileInfo 4096 (mkTime 1600000000 "2020-09-13 12:26:40 +0000 UTC")) heap0 0%nat H0).
Defined.

Lemma NewUpload_from_file_Timestamp_witness :
  (file_Stat file_old = (Some (mkFileInfo 100 (mkTime (-86400) "1969-12-31 00:00:00 +0000 UTC")), None))
  /\   ((0 < info_Size (mkFileInfo 100 (mkTime (-86400) "1969-12-31 00:00:00 +0000 UTC")))%Z)
  /\   ((- 2 ^ 63 <= Time_Unix (info_ModTime (mkFileInfo 100 (mkTime (-86400) "1969-12-31 00:00:00 +0000 UTC"))) * 1000 < 2 ^ 63)%Z)
  /\ (exists p σ1 out o',
    NewUploadOptionsFromFile file_old heap0 = Some ((Some p, None), σ1)
    /\ σ1 !! p = Some (mkUploadOptions (Some (file_reader file_old)) (info_Size (mkFileInfo 100 (mkTime (-86400) "1969-12-31 00:00:00 +0000 UTC"))) (path_Base (file_Name file_old)) (wrap64 (Time_Unix (info_ModTime (mkFileInfo 100 (mkTime (-86400) "1969-12-31 00:00:00 +0000 UTC"))) * 1000)) "" "")
    /\ Timestamp (mkUploadOptions (Some (file_reader file_old)) (info_Size (mkFileInfo 100 (mkTime (-86400) "1969-12-31 00:00:00 +0000 UTC"))) (path_Base (file_Name file_old)) (wrap64 (Time_Unix (info_ModTime (mkFileInfo 100 (mkTime (-86400) "1969-12-31 00:00:00 +0000 UTC"))) * 1000)) "" "") = (Time_Unix (info_ModTime (mkFileInfo 100 (mkTime (-86400) "1969-12-31 00:00:00 +0000 UTC"))) * 1000)%Z
    /\ run (scripted happy) (NewUpload p tt) σ1 0%nat [] = Some out
    /\ heap out !! p = Some o'
    /\ ((0 <= Time_Unix (info_ModTime (mkFileInfo 100 (mkTime (-86400) "1969-12-31 00:00:00 +0000 UTC"))))%Z ->
        Timestamp o' = (Time_Unix (info_ModTime (mkFileInfo 100 (mkTime (-86400) "1969-12-31 00:00:00 +0000 UTC"))) * 1000)%Z
        /\ trace out = [])
    /\ ((Time_Unix (info_ModTime (mkFileInfo 100 (mkTime (-86400) "1969-12-31 00:00:00 +0000 UTC"))) < 0)%Z ->
        Timestamp o' = Time_Unix (fst ((scripted happy) time_Now σ1 0%nat))
        /\ trace out = [time_Now])).
Proof.
  assert (H0 : file_Stat file_old = (Some (mkFileInfo 100 (mkTime (-86400) "1969-12-31 00:00:00 +0000 UTC")), None))
    by sample.
  assert (H1 : (0 < info_Size (mkFileInfo 100 (mkTime (-86400) "1969-12-31 00:00:00 +0000 UTC")))%Z)
    by sample.
  assert (H2 : (- 2 ^ 63 <= Time_Unix (info_ModTime (mkFileInfo 100 (mkTime (-86400) "1969-12-31 00:00:00 +0000 UTC"))) * 1000 < 2 ^ 63)%Z)
    by sample.
  split; [exact H0|].
  split; [exact H1|].
  split; [exact H2|].
  exact (NewUpload_from_file_Timestamp (scripted happy) tt file_old (mkFileInfo 100 (mkTime (-86400) "1969-12-31 00:00:00 +0000 UTC")) heap0 0%nat H0 H1 H2).
Defined.

Lemma Upload_from_file_no_album_witness :
  (file_Stat file0 = (Some (mkFileInfo 4096 (mkTime 1600000000 "2020-09-13 12:26:40 +0000 UTC")), None))
  /\   ((0 < info_Size (mkFileInfo 4096 (mkTime 1600000000 "2020-09-13 12:26:40 +0000 UTC")))%Z)
  /\ (exists p σ1 out1 u,
    NewUploadOptionsFromFile file0 heap0 = Some ((Some p, None), σ1)
    /\ run (scripted happy) (NewUpload p tt) σ1 0%nat [] = Some out1
    /\ result out1 = (Some u, None)
    /\ exists out2,
         run (scripted happy) (Upload_Upload u) (heap out1) 0%nat [] = Some out2
         /\ existsb is_album_step (trace out2) = false
         /\ AlbumID (fst (result out2)) = ""
         /\ heap out2 = heap out1).
Proof.
  assert (H0 : file_Stat file0 = (Some (mkFileInfo 4096 (mkTime 1600000000 "2020-09-13 12:26:40 +0000 UTC")), None))
    by sample.
  assert (H1 : (0 < info_Size (mkFileInfo 4096 (mkTime 1600000000 "2020-09-13 12:26:40 +0000 UTC")))%Z)
    by sample.
  split; [exact H0|].
  split; [exact H1|].
  exact (Upload_from_file_no_album (scripted happy) tt file0 (mkFileInfo 4096 (mkTime 1600000000 "2020-09-13 12:26:40 +0000 UTC")) heap0 0%nat H0 0%nat H1).
Defined.

Lemma NewUploadOptionsFromFile_spec_witness :
  NewUploadOptionsFromFile file_gone heap0
  = Some ((None,
           Some ("can't read file information ("
                 +:+ "stat gone.jpg: no such file or directory" +:+ ")")),
          heap0)
  /\ exists p σ' o,
       NewUploadOptionsFromFile file0 heap0 = Some ((Some p, None), σ')
       /\ heap0 !! p = None
       /\ σ' !! p = Some o
       /\ Stream o = Some (file_reader file0)
       /\ FileSize o = info_Size (mkFileInfo 4096 (mkTime 1600000000 "2020-09-13 12:26:40 +0000 UTC"))
       /\ AlbumId o = "" /\ AlbumName o = ""
       /\ (forall q, q <> p -> σ' !! q = heap0 !! q).
Proof.
  split.
  - exact (proj1 (NewUploadOptionsFromFile_spec file_gone heap0)
             None "stat gone.jpg: no such file or directory" eq_refl).
  - exact (proj2 (NewUploadOptionsFromFile_spec file0 heap0)
             (mkFileInfo 4096 (mkTime 1600000000 "2020-09-13 12:26:40 +0000 UTC")) eq_refl).
Defined.
